(** * Recipe-Generator: the basket controller and the recipe service client

    A shallow embedding of
      - [api.ts] (the axios wrapper: [fetchIngredients], [addIngredient],
        [generateRecipe], [fetchRecipeHistory]), and
      - [RecipeGenerator.tsx] (the [handleGenerateRecipe] click handler and
        the [disabled] attribute of the button that triggers it).

    Asynchronous functions are terms of a small free monad [proc]: a
    synchronous effect is an [Emit] node, an [await] on an axios promise is an
    [Await] node whose continuation receives the settlement of the promise,
    and a JavaScript exception is a [Throw] leaf.  [try]/[catch]/[finally] are
    functions on such terms. *)

From Stdlib Require Import String Ascii List Bool Arith ZArith Lia Permutation.
From ExtLib Require Import Structures.Monad Structures.MonadExc.
Import ListNotations.
Import MonadNotation.
Local Open Scope string_scope.
Local Open Scope monad_scope.

Set Implicit Arguments.
Set Warnings "-register-all".

(** ** JavaScript values carried by axios responses *)

Module Js.

(** [response.data] is untyped at run time ([any]): a parsed JSON document,
    or [undefined] when a property is read that the value does not have.
    Numbers are kept as integers, which is all their truthiness depends on;
    an object is the list of its properties, a repeated key reading as its
    first occurrence. *)
Inductive value : Type :=
| Undefined
| Null
| Bool (b : bool)
| Num (z : Z)
| Str (s : string)
| Arr (elems : list value)
| Obj (fields : list (string * value)).

(** Truthiness as used by [!x], [x ? a : b] and [x || y]. *)
Definition truthy (v : value) : bool :=
  match v with
  | Undefined | Null => false
  | Bool b => b
  | Num z => negb (z =? 0)%Z
  | Str s => negb (s =? "")
  | Arr _ | Obj _ => true
  end.

Fixpoint lookup (key : string) (fields : list (string * value)) : option value :=
  match fields with
  | [] => None
  | (k, v) :: rest => if k =? key then Some v else lookup key rest
  end.

(** [has_field key v]: [v] is an object with an own property [key]. *)
Definition has_field (key : string) (v : value) : bool :=
  match v with
  | Obj fields => match lookup key fields with Some _ => true | None => false end
  | _ => false
  end.

(** Property read [v.key] for the two keys the client reads ([item] and
    [recipe]); neither is a property of a string, number, boolean or array
    prototype, so the read yields [undefined] on every non-object. *)
Definition get (key : string) (v : value) : value :=
  match v with
  | Obj fields => match lookup key fields with Some x => x | None => Undefined end
  | _ => Undefined
  end.

(** [Error] objects: the only property the code reads is [message]. *)
Inductive exn : Type :=
| Error (message : string)
| AxiosError (message : string) (code : string).

Definition message (e : exn) : string :=
  match e with
  | Error m => m
  | AxiosError m _ => m
  end.

(** [Array.prototype.join] on an array of strings. *)
Definition join (sep : string) (l : list string) : string := String.concat sep l.

End Js.

(** ** Requests, responses and observable effects *)

Inductive http_method : Type := GET | POST.

Record request : Type := mkRequest {
  req_method  : http_method;
  req_baseURL : string;
  req_headers : list (string * string);
  req_url     : string;
  req_body    : option Js.value
}.

Record response : Type := mkResponse {
  status : Z;
  data   : Js.value
}.

(** Settlement of the promise returned by [api.get] / [api.post]. *)
Inductive settlement : Type :=
| Resolved (r : response)
| Rejected (e : Js.exn).

(** Arguments printed by a console call. *)
Inductive log_arg : Type :=
| LStr (s : string)
| LNames (names : list string)
| LErr (e : Js.exn).

(** Synchronous effects, in the component and in the client. *)
Inductive event : Type :=
| SetError (msg : option string)
| SetIsGenerating (b : bool)
| ConsoleLog (args : list log_arg)
| ConsoleWarn (args : list log_arg)
| ConsoleError (args : list log_arg)
| OnRecipeGenerated (recipe : Js.value).

(** ** Asynchronous procedures *)

Inductive proc (A : Type) : Type :=
| Ret (a : A)
| Throw (e : Js.exn)
| Emit (ev : event) (k : proc A)
| Await (r : request) (k : settlement -> proc A).

Arguments Throw {A} e.

Fixpoint pbind {A B : Type} (p : proc A) (f : A -> proc B) : proc B :=
  match p with
  | Ret a => f a
  | Throw e => Throw e
  | Emit ev k => Emit ev (pbind k f)
  | Await r k => Await r (fun s => pbind (k s) f)
  end.

(** [try { p } catch (e) { h e }] *)
Fixpoint try_catch {A : Type} (p : proc A) (h : Js.exn -> proc A) : proc A :=
  match p with
  | Ret a => Ret a
  | Throw e => h e
  | Emit ev k => Emit ev (try_catch k h)
  | Await r k => Await r (fun s => try_catch (k s) h)
  end.

(** [try { p } finally { f }] for a [finally] block that completes normally
    re-raises what [p] raised, and is replaced by what [f] raises otherwise. *)
Fixpoint try_finally {A : Type} (p : proc A) (f : proc unit) : proc A :=
  match p with
  | Ret a => pbind f (fun _ => Ret a)
  | Throw e => pbind f (fun _ => Throw e)
  | Emit ev k => Emit ev (try_finally k f)
  | Await r k => Await r (fun s => try_finally (k s) f)
  end.

#[global] Instance Monad_proc : Monad proc :=
  {| ret := @Ret; bind := @pbind |}.

#[global] Instance Exc_proc : MonadExc Js.exn proc :=
  {| raise := @Throw; catch := @try_catch |}.

Definition emit (ev : event) : proc unit := Emit ev (Ret tt).

(** ** api.ts *)

Module Api.

Definition API_BASE_URL : string :=
  "https://recipe-generator-backend-vqb7.onrender.com/api/".

(** The instance built by [axios.create]. *)
Definition api_headers : list (string * string) :=
  [("Content-Type", "application/json")].

Definition await (r : request) : proc response :=
  Await r (fun s => match s with
                    | Resolved resp => Ret resp
                    | Rejected e => Throw e
                    end).

Definition api_get (url : string) : proc response :=
  await (mkRequest GET API_BASE_URL api_headers url None).

Definition api_post (url : string) (body : Js.value) : proc response :=
  await (mkRequest POST API_BASE_URL api_headers url (Some body)).

Definition dquote : string := String (ascii_of_nat 34) EmptyString.

Definition fetchIngredients : proc Js.value :=
  catch
    (emit (ConsoleLog [LStr "Fetching ingredients from API..."]) ;;
     response <- api_get "/items" ;;
     ret (data response))
    (fun error =>
       emit (ConsoleError [LStr "Error fetching ingredients:"; LErr error]) ;;
       raise error).

Definition addIngredient (ingredientName : string) : proc Js.value :=
  catch
    (emit (ConsoleLog [LStr ("Adding ingredient " ++ dquote ++ ingredientName
                               ++ dquote ++ " via API...")]) ;;
     response <- api_post "/items/add" (Js.Obj [("item", Js.Str ingredientName)]) ;;
     if negb (Js.truthy (data response))
        || negb (Js.truthy (Js.get "item" (data response)))
     then raise (Js.Error "Invalid response structure from addIngredient API")
     else ret (Js.get "item" (data response)))
    (fun error =>
       emit (ConsoleError [LStr ("Error adding ingredient " ++ dquote
                                   ++ ingredientName ++ dquote ++ ":");
                           LErr error]) ;;
       raise error).

Definition generateRecipe (ingredientNames : list string) : proc Js.value :=
  catch
    (emit (ConsoleLog [LStr ("Generating recipe with ingredients " ++ dquote
                               ++ Js.join ", " ingredientNames
                               ++ dquote ++ " via API...")]) ;;
     response <- api_post "/recipes/basket/generate-recipe"
                          (Js.Obj [("items", Js.Arr (map Js.Str ingredientNames))]) ;;
     if negb (Js.truthy (data response))
        || negb (Js.truthy (Js.get "recipe" (data response)))
     then raise (Js.Error "Invalid response structure from generateRecipe API")
     else ret (Js.get "recipe" (data response)))
    (fun error =>
       emit (ConsoleError [LStr "Error generating recipe:"; LErr error]) ;;
       raise error).

Definition fetchRecipeHistory : proc Js.value :=
  catch
    (emit (ConsoleLog [LStr "Fetching recipe history from API..."]) ;;
     response <- api_get "/recipes/history" ;;
     ret (data response))
    (fun error =>
       emit (ConsoleError [LStr "Error fetching recipe history:"; LErr error]) ;;
       raise error).

End Api.

(** ** RecipeGenerator.tsx *)

Record Ingredient : Type := mkIngredient {
  _id       : string;
  name      : string;
  createdAt : string;
  updatedAt : string;
  __v       : option Z
}.

(** The parent's callback either returns or throws an [Error] object, a value
    whose [message] can be read; it has no access to the state of this
    component.  A callback that throws [null] or [undefined], on which the
    [catch] block of the handler would itself throw when it reads
    [err.message], is not represented. *)
Record RecipeGeneratorProps : Type := mkProps {
  selectedIngredientIds : list string;
  onRecipeGenerated     : Js.value -> option Js.exn;
  ingredients           : list Ingredient
}.

(** The two [useState] cells. *)
Record state : Type := mkState {
  isGenerating : bool;
  error        : option string
}.

Definition initial_state : state := mkState false None.

(** [ingredients.find(i => i._id === id)], then [ingredient ? ingredient.name : null]. *)
Definition name_or_null (catalog : list Ingredient) (id : string) : option string :=
  match find (fun i => String.eqb (_id i) id) catalog with
  | Some ingredient => Some (name ingredient)
  | None => None
  end.

Definition not_null (x : option string) : bool :=
  match x with Some _ => true | None => false end.

(** The type guard [(name): name is string] of the [filter] callback. *)
Fixpoint narrow (l : list (option string)) : list string :=
  match l with
  | [] => []
  | Some s :: rest => s :: narrow rest
  | None :: rest => narrow rest
  end.

Definition selectedIngredientNames (ids : list string) (catalog : list Ingredient)
  : list string :=
  narrow (filter not_null (map (name_or_null catalog) ids)).

(** [err.message || 'Failed to generate recipe. Please try again.'] *)
Definition message_or_default (err : Js.exn) : string :=
  if String.eqb (Js.message err) "" then "Failed to generate recipe. Please try again."
  else Js.message err.

Definition call_onRecipeGenerated (props : RecipeGeneratorProps) (recipe : Js.value)
  : proc unit :=
  Emit (OnRecipeGenerated recipe)
       (match onRecipeGenerated props recipe with
        | None => Ret tt
        | Some e => Throw e
        end).

Definition handleGenerateRecipe (props : RecipeGeneratorProps) : proc unit :=
  let ids := selectedIngredientIds props in
  if Nat.eqb (length ids) 0 then
    emit (SetError (Some "Please select ingredients first.")) ;;
    ret tt
  else
    emit (SetIsGenerating true) ;;
    emit (SetError None) ;;
    let names := selectedIngredientNames ids (ingredients props) in
    if Nat.eqb (length names) 0 && Nat.ltb 0 (length ids) then
      emit (SetError (Some "Could not find names for selected ingredients.")) ;;
      emit (SetIsGenerating false) ;;
      ret tt
    else
      (if negb (Nat.eqb (length names) (length ids))
       then emit (ConsoleWarn [LStr "Some selected ingredient IDs did not map to names."])
       else ret tt) ;;
      try_finally
        (catch
           (emit (ConsoleLog [LStr "Sending ingredient names to generateRecipe:";
                              LNames names]) ;;
            recipe <- Api.generateRecipe names ;;
            call_onRecipeGenerated props recipe)
           (fun err =>
              emit (SetError (Some (message_or_default err))) ;;
              emit (ConsoleError [LStr "Error generating recipe:"; LErr err])))
        (emit (SetIsGenerating false)).

(** [disabled={isGenerating || selectedIngredientIds.length === 0}] *)
Definition button_disabled (s : state) (props : RecipeGeneratorProps) : bool :=
  isGenerating s || Nat.eqb (length (selectedIngredientIds props)) 0.

(** ** Running a procedure *)

Definition apply_event (ev : event) (s : state) : state :=
  match ev with
  | SetError msg => mkState (isGenerating s) msg
  | SetIsGenerating b => mkState b (error s)
  | _ => s
  end.

(** What an observer of one call sees, in order. *)
Inductive obs : Type :=
| Did (ev : event)
| Sent (r : request)
| Settled (s : settlement).

Inductive outcome (A : Type) : Type :=
| Returned (a : A)
| Threw (e : Js.exn).

Arguments Threw {A} e.

(** The transport answers each request; the procedure runs to completion. *)
Fixpoint run {A : Type} (net : request -> settlement) (p : proc A)
  : list obs * outcome A :=
  match p with
  | Ret a => ([], Returned a)
  | Throw e => ([], Threw e)
  | Emit ev k => let '(tr, o) := run net k in (Did ev :: tr, o)
  | Await r k => let '(tr, o) := run net (k (net r)) in
                 (Sent r :: Settled (net r) :: tr, o)
  end.

Definition trace {A : Type} (net : request -> settlement) (p : proc A) : list obs :=
  fst (run net p).

Definition result {A : Type} (net : request -> settlement) (p : proc A) : outcome A :=
  snd (run net p).

Definition apply_obs (s : state) (o : obs) : state :=
  match o with
  | Did ev => apply_event ev s
  | _ => s
  end.

Definition state_after (tr : list obs) (s : state) : state :=
  fold_left apply_obs tr s.

Fixpoint requests (tr : list obs) : list request :=
  match tr with
  | [] => []
  | Sent r :: rest => r :: requests rest
  | _ :: rest => requests rest
  end.

Fixpoint warnings (tr : list obs) : list (list log_arg) :=
  match tr with
  | [] => []
  | Did (ConsoleWarn args) :: rest => args :: warnings rest
  | _ :: rest => warnings rest
  end.

Fixpoint flag_writes (tr : list obs) : list bool :=
  match tr with
  | [] => []
  | Did (SetIsGenerating b) :: rest => b :: flag_writes rest
  | _ :: rest => flag_writes rest
  end.

Fixpoint error_writes (tr : list obs) : list (option string) :=
  match tr with
  | [] => []
  | Did (SetError m) :: rest => m :: error_writes rest
  | _ :: rest => error_writes rest
  end.

(** The request [generateRecipe names] hands to axios. *)
Definition generate_request (names : list string) : request :=
  mkRequest POST Api.API_BASE_URL Api.api_headers "/recipes/basket/generate-recipe"
            (Some (Js.Obj [("items", Js.Arr (map Js.Str names))])).

(** ** The mounted component: clicks and settlements interleaved

    A click runs the handler up to its first [await]; the suspended
    continuation stays in flight until its promise settles, in any order
    with respect to later clicks.  State updates made before the handler
    suspends are rendered before the next event is dispatched, so the
    [disabled] attribute seen by a click is computed from the current state. *)

Record component : Type := mkComponent {
  cstate   : state;
  inflight : list (settlement -> proc unit);
  sent     : list request
}.

Definition mounted : component := mkComponent initial_state [] [].

(** Run [p] until it returns, throws or suspends on a request. *)
Fixpoint advance (p : proc unit) (c : component) : component :=
  match p with
  | Ret _ => c
  | Throw _ => c
  | Emit ev k => advance k (mkComponent (apply_event ev (cstate c)) (inflight c) (sent c))
  | Await r k => mkComponent (cstate c) (inflight c ++ [k]) (sent c ++ [r])
  end.

Fixpoint remove_nth {A : Type} (i : nat) (l : list A) : list A :=
  match l, i with
  | [], _ => []
  | _ :: rest, O => rest
  | x :: rest, S j => x :: remove_nth j rest
  end.

(** What can happen to the component: a click on the button with the props
    of the current render, or the settlement of the [i]-th request in flight. *)
Inductive action : Type :=
| Click (props : RecipeGeneratorProps)
| Settle (i : nat) (s : settlement).

(** A disabled button dispatches no click event. *)
Definition click (props : RecipeGeneratorProps) (c : component) : component :=
  if button_disabled (cstate c) props then c
  else advance (handleGenerateRecipe props) c.

Definition settle (i : nat) (s : settlement) (c : component) : component :=
  match nth_error (inflight c) i with
  | Some k => advance (k s) (mkComponent (cstate c) (remove_nth i (inflight c)) (sent c))
  | None => c
  end.

Definition step (c : component) (a : action) : component :=
  match a with
  | Click props => click props c
  | Settle i s => settle i s c
  end.

Definition after (actions : list action) : component :=
  fold_left step actions mounted.

(** The handler called directly, without the button in front of it. *)
Definition call_handler (props : RecipeGeneratorProps) (c : component) : component :=
  advance (handleGenerateRecipe props) c.

(** ** Definitions used to state the properties *)

(** The names one selected id contributes: the name of the first catalog
    entry with that id, or nothing. *)
Definition resolve_one (catalog : list Ingredient) (id : string) : list string :=
  match find (fun i => String.eqb (_id i) id) catalog with
  | Some i => [name i]
  | None => []
  end.

(** [nm] is the name of the first catalog entry whose id is [id]. *)
Definition resolves_to (catalog : list Ingredient) (id nm : string) : Prop :=
  exists i, find (fun i => String.eqb (_id i) id) catalog = Some i
            /\ In i catalog /\ _id i = id /\ name i = nm.

(** The [try]/[catch]/[finally] statement of [handleGenerateRecipe]. *)
Definition generating (props : RecipeGeneratorProps) (names : list string) : proc unit :=
  try_finally
    (catch
       (emit (ConsoleLog [LStr "Sending ingredient names to generateRecipe:";
                          LNames names]) ;;
        recipe <- Api.generateRecipe names ;;
        call_onRecipeGenerated props recipe)
       (fun err =>
          emit (SetError (Some (message_or_default err))) ;;
          emit (ConsoleError [LStr "Error generating recipe:"; LErr err])))
    (emit (SetIsGenerating false)).

Definition mismatch_warning : list log_arg :=
  [LStr "Some selected ingredient IDs did not map to names."].

Definition sending_log (names : list string) : list log_arg :=
  [LStr "Sending ingredient names to generateRecipe:"; LNames names].

Definition generating_log (names : list string) : list log_arg :=
  [LStr ("Generating recipe with ingredients " ++ Api.dquote
           ++ Js.join ", " names ++ Api.dquote ++ " via API...")].

Definition malformed_recipe : Js.exn :=
  Js.Error "Invalid response structure from generateRecipe API".

Definition malformed_item : Js.exn :=
  Js.Error "Invalid response structure from addIngredient API".

(** What the [catch] and [finally] blocks of the handler do with [err]. *)
Definition on_error (err : Js.exn) : list obs :=
  [Did (SetError (Some (message_or_default err)));
   Did (ConsoleError [LStr "Error generating recipe:"; LErr err]);
   Did (SetIsGenerating false)].

(** What the handler does once its request has settled with [s]. *)
Definition completion (props : RecipeGeneratorProps) (s : settlement) : list obs :=
  match s with
  | Rejected e =>
      Did (ConsoleError [LStr "Error generating recipe:"; LErr e]) :: on_error e
  | Resolved resp =>
      if Js.truthy (data resp) && Js.truthy (Js.get "recipe" (data resp)) then
        Did (OnRecipeGenerated (Js.get "recipe" (data resp))) ::
        match onRecipeGenerated props (Js.get "recipe" (data resp)) with
        | None => [Did (SetIsGenerating false)]
        | Some e => on_error e
        end
      else
        Did (ConsoleError [LStr "Error generating recipe:"; LErr malformed_recipe])
            :: on_error malformed_recipe
  end.

(** The value of the in-progress flag at each moment a request is on the
    wire: when it is sent and when it settles. *)
Fixpoint flag_during_network (s : state) (tr : list obs) : list bool :=
  match tr with
  | [] => []
  | Did ev :: rest => flag_during_network (apply_event ev s) rest
  | Sent _ :: rest => isGenerating s :: flag_during_network s rest
  | Settled _ :: rest => isGenerating s :: flag_during_network s rest
  end.

(** A continuation in flight that, once resumed, clears the flag and neither
    suspends again nor sends anything. *)
Definition clears_flag (k : settlement -> proc unit) : Prop :=
  forall (s : settlement) (c : component),
    isGenerating (cstate (advance (k s) c)) = false
    /\ inflight (advance (k s) c) = inflight c
    /\ sent (advance (k s) c) = sent c.

(** The requests the four client functions hand to axios. *)
Definition get_request (url : string) : request :=
  mkRequest GET Api.API_BASE_URL Api.api_headers url None.

Definition add_request (ingredientName : string) : request :=
  mkRequest POST Api.API_BASE_URL Api.api_headers "/items/add"
            (Some (Js.Obj [("item", Js.Str ingredientName)])).

(** Unwrapping an envelope: the nested field when it is there and truthy,
    the malformed-response error otherwise, the transport error as it is. *)
Definition unwrapped (key : string) (malformed : Js.exn) (s : settlement)
  : outcome Js.value :=
  match s with
  | Resolved resp =>
      if Js.has_field key (data resp) && Js.truthy (Js.get key (data resp))
      then Returned (Js.get key (data resp))
      else Threw malformed
  | Rejected e => Threw e
  end.

(** Nothing in flight, flag down; or one call in flight, flag up. *)
Definition idle_or_pending (c : component) : Prop :=
  (inflight c = [] /\ isGenerating (cstate c) = false)
  \/ (exists k, inflight c = [k] /\ clears_flag k /\ isGenerating (cstate c) = true).

(** Concrete data for examples. *)
Definition egg : Ingredient := mkIngredient "a" "Egg" "2024-01-01T00:00:00.000Z" "2024-01-01T00:00:00.000Z" (Some 0%Z).
Definition milk : Ingredient := mkIngredient "b" "Milk" "2024-01-01T00:00:00.000Z" "2024-01-01T00:00:00.000Z" (Some 0%Z).
Definition eggnog : Ingredient := mkIngredient "a" "Eggnog" "2024-01-02T00:00:00.000Z" "2024-01-02T00:00:00.000Z" (Some 0%Z).

Definition omelette : Js.value :=
  Js.Obj [("_id", Js.Str "r1"); ("ingredients", Js.Arr [Js.Str "Egg"; Js.Str "Milk"]);
          ("title", Js.Str "Omelette"); ("instructions", Js.Str "Whisk and fry.")].

Definition net_ok (_ : request) : settlement :=
  Resolved (mkResponse 201 (Js.Obj [("message", Js.Str "Recipe generated"); ("recipe", omelette)])).

Definition net_down (_ : request) : settlement :=
  Rejected (Js.AxiosError "Network Error" "ERR_NETWORK").

Definition no_throw (_ : Js.value) : option Js.exn := None.

(** ** RecipeGenerator.tsx: what the component renders *)

(** A React element tree: [null], a string or a number child, an array of
    children (the result of a [map]), or an element with its tag, its [key],
    its other props in source order and its children. *)
Inductive prop_value : Type :=
| PStr (s : string)
| PBool (b : bool)
| PHandler.

Inductive node : Type :=
| NullNode
| Text (s : string)
| Number (n : nat)
| Items (items : list node)
| Elem (tag : string) (key : option string) (attrs : list (string * prop_value))
       (children : list node).

Definition basket_icon : node :=
  Elem "svg" None
       [("xmlns", PStr "http://www.w3.org/2000/svg");
        ("className", PStr "h-5 w-5 mr-2 text-indigo-600");
        ("viewBox", PStr "0 0 20 20"); ("fill", PStr "currentColor")]
       [Elem "path" None
             [("d", PStr "M3 1a1 1 0 000 2h1.22l.305 1.222a.997.997 0 00.01.042l1.358 5.43-.893.892C3.74 11.846 4.632 14 6.414 14H15a1 1 0 000-2H6.414l1-1H14a1 1 0 00.894-.553l3-6A1 1 0 0017 3H6.28l-.31-1.243A1 1 0 005 1H3zM16 16.5a1.5 1.5 0 11-3 0 1.5 1.5 0 013 0zM6.5 18a1.5 1.5 0 100-3 1.5 1.5 0 000 3z")]
             []].

Definition loading_spinner : node :=
  Elem "svg" None
       [("className", PStr "animate-spin -ml-1 mr-2 h-4 w-4 text-white");
        ("xmlns", PStr "http://www.w3.org/2000/svg");
        ("fill", PStr "none"); ("viewBox", PStr "0 0 24 24")]
       [Elem "circle" None
             [("className", PStr "opacity-25"); ("cx", PStr "12"); ("cy", PStr "12");
              ("r", PStr "10"); ("stroke", PStr "currentColor"); ("strokeWidth", PStr "4")]
             [];
        Elem "path" None
             [("className", PStr "opacity-75"); ("fill", PStr "currentColor");
              ("d", PStr "M4 12a8 8 0 018-8V0C5.373 0 0 5.373 0 12h4zm2 5.291A7.962 7.962 0 014 12H0c0 3.042 1.135 5.824 3 7.938l3-2.647z")]
             []].

(** The callback of [selectedIngredientIds.map] in the display area. *)
Definition chip (catalog : list Ingredient) (id : string) : node :=
  match find (fun i => String.eqb (_id i) id) catalog with
  | Some ingredient =>
      Elem "span" (Some id)
           [("className", PStr "bg-indigo-100 text-indigo-700 px-3 py-1 rounded-full text-sm font-medium shadow-sm")]
           [Text (name ingredient)]
  | None =>
      Elem "span" (Some id)
           [("className", PStr "bg-gray-200 text-gray-500 px-3 py-1 rounded-full text-sm italic")]
           [Text "Loading..."]
  end.

(** The value returned by the component function for the given props and
    state cells. *)
Definition render (props : RecipeGeneratorProps) (s : state) : node :=
  let selectedIngredientIds := selectedIngredientIds props in
  Elem "div" None
    [("className", PStr "my-6 p-4 border border-gray-200 rounded-lg shadow-sm bg-white")]
    [ (match error s with
       | None => NullNode
       | Some msg =>
           if String.eqb msg "" then Text msg
           else Elem "p" None
                     [("className", PStr "text-red-600 mb-3 text-sm bg-red-100 p-2 rounded")]
                     [Text msg]
       end);
      Elem "div" None [("className", PStr "flex justify-between items-center mb-3")]
        [ Elem "div" None [("className", PStr "flex items-center")]
            [ basket_icon;
              Elem "h2" None [("className", PStr "text-lg font-semibold text-gray-800")]
                   [Text "Your Basket"] ];
          Elem "div" None
               [("className", PStr "bg-indigo-600 text-white rounded-full px-3 py-1 text-xs font-medium")]
               [ Number (length selectedIngredientIds); Text " ";
                 Text (if Nat.eqb (length selectedIngredientIds) 1 then "item" else "items") ] ];
      Elem "div" None
           [("className", PStr "bg-gray-50 p-4 rounded-md mb-4 min-h-[80px] border border-gray-100")]
        [ if Nat.ltb 0 (length selectedIngredientIds) then
            Elem "div" None [("className", PStr "space-y-3")]
              [ Elem "div" None [("className", PStr "flex flex-wrap gap-2 justify-center")]
                  [ Items (map (chip (ingredients props)) selectedIngredientIds) ] ]
          else
            Elem "p" None [("className", PStr "text-gray-500 text-center pt-4")]
                 [Text "Your basket is empty. Add items from your pantry!"] ];
      Elem "button" None
           [("onClick", PHandler);
            ("disabled", PBool (isGenerating s
                                || Nat.eqb (length selectedIngredientIds) 0));
            ("className", PStr "w-full bg-indigo-600 text-white py-2.5 px-4 rounded-md font-medium hover:bg-indigo-700 focus:outline-none focus:ring-2 focus:ring-offset-2 focus:ring-indigo-500 transition-colors duration-150 disabled:opacity-60 disabled:cursor-not-allowed")]
        [ if isGenerating s then
            Elem "span" None [("className", PStr "flex items-center justify-center")]
                 [ loading_spinner; Text "Generating Recipe..." ]
          else Text "Generate Recipe" ] ].

(** ** Reading an element tree *)

(** Every element of the tree with the given tag, in document order. *)
Fixpoint by_tag (tag : string) (n : node) : list node :=
  match n with
  | Elem t key attrs children =>
      ((if String.eqb t tag then [n] else []) ++ flat_map (by_tag tag) children)%list
  | Items items => flat_map (by_tag tag) items
  | _ => []
  end.

(** Every element that carries a [key], in document order. *)
Fixpoint keyed (n : node) : list node :=
  match n with
  | Elem t key attrs children =>
      ((match key with Some _ => [n] | None => [] end) ++ flat_map keyed children)%list
  | Items items => flat_map keyed items
  | _ => []
  end.

(** The strings the tree displays, in document order. *)
Fixpoint texts (n : node) : list string :=
  match n with
  | Text s => [s]
  | Items items => flat_map texts items
  | Elem _ _ _ children => flat_map texts children
  | _ => []
  end.

Fixpoint get_attr (a : string) (attrs : list (string * prop_value)) : option prop_value :=
  match attrs with
  | [] => None
  | (k, v) :: rest => if String.eqb k a then Some v else get_attr a rest
  end.

Definition attr (a : string) (n : node) : option prop_value :=
  match n with
  | Elem _ _ attrs _ => get_attr a attrs
  | _ => None
  end.

Definition key_of (n : node) : option string :=
  match n with
  | Elem _ key _ _ => key
  | _ => None
  end.

(** The numbers the tree displays, in document order. *)
Fixpoint numbers (n : node) : list nat :=
  match n with
  | Number k => [k]
  | Items items => flat_map numbers items
  | Elem _ _ _ children => flat_map numbers children
  | _ => []
  end.

Definition placeholder_class : string :=
  "bg-gray-200 text-gray-500 px-3 py-1 rounded-full text-sm italic".

Definition is_placeholder (n : node) : bool :=
  match attr "className" n with
  | Some (PStr c) => String.eqb c placeholder_class
  | _ => false
  end.

(** ** More definitions used to state properties *)

(** The values the parent's callback was called with. *)
Fixpoint callbacks (tr : list obs) : list Js.value :=
  match tr with
  | [] => []
  | Did (OnRecipeGenerated recipe) :: rest => recipe :: callbacks rest
  | _ :: rest => callbacks rest
  end.

Definition logged_error (args : list log_arg) : list Js.exn :=
  flat_map (fun a => match a with LErr e => [e] | _ => [] end) args.

(** The error objects passed to [console.error]. *)
Fixpoint errors_logged (tr : list obs) : list Js.exn :=
  match tr with
  | [] => []
  | Did (ConsoleError args) :: rest => (logged_error args ++ errors_logged rest)%list
  | _ :: rest => errors_logged rest
  end.

Definition thrown {A : Type} (o : outcome A) : list Js.exn :=
  match o with
  | Returned _ => []
  | Threw e => [e]
  end.

Fixpoint clicks (actions : list action) : nat :=
  match actions with
  | [] => 0
  | Click _ :: rest => S (clicks rest)
  | Settle _ _ :: rest => clicks rest
  end.

(** A continuation in flight that never leaves the empty string in the
    error cell. *)
Definition keeps_error_shown (k : settlement -> proc unit) : Prop :=
  forall (s : settlement) (c : component),
    error (cstate c) <> Some "" ->
    error (cstate (advance (k s) c)) <> Some ""
    /\ inflight (advance (k s) c) = inflight c.

(** The error cell never holds the empty string, nor will it once what is in
    flight has settled. *)
Definition error_shown (c : component) : Prop :=
  error (cstate c) <> Some "" /\ Forall keeps_error_shown (inflight c).

Definition pepper : Ingredient :=
  mkIngredient "c" "Pepper" "2024-01-03T00:00:00.000Z" "2024-01-03T00:00:00.000Z" None.

Definition net_malformed (_ : request) : settlement :=
  Resolved (mkResponse 200 (Js.Obj [("message", Js.Str "Recipe generated")])).

Definition throwing (_ : Js.value) : option Js.exn :=
  Some (Js.Error "Cannot read properties of undefined").

(** * Properties *)

Local Open Scope list_scope.

(** ** Name resolution *)

Section NameResolution.

Variable catalog : list Ingredient.

Lemma name_or_null_find id :
  name_or_null catalog id =
  option_map name (find (fun i => String.eqb (_id i) id) catalog).
Proof. unfold name_or_null. destruct (find _ catalog); reflexivity. Qed.

Lemma names_cons id ids :
  selectedIngredientNames (id :: ids) catalog =
  resolve_one catalog id ++ selectedIngredientNames ids catalog.
Proof.
  unfold selectedIngredientNames, resolve_one. simpl.
  rewrite name_or_null_find.
  destruct (find _ catalog); reflexivity.
Qed.

Lemma names_flat_map ids :
  selectedIngredientNames ids catalog = flat_map (resolve_one catalog) ids.
Proof.
  induction ids as [|id ids IH]; [reflexivity|].
  rewrite names_cons, IH. reflexivity.
Qed.

Lemma names_app ids1 ids2 :
  selectedIngredientNames (ids1 ++ ids2) catalog =
  selectedIngredientNames ids1 catalog ++ selectedIngredientNames ids2 catalog.
Proof. rewrite !names_flat_map. apply flat_map_app. Qed.

Lemma find_by_id id :
  (exists i, In i catalog /\ _id i = id) ->
  exists i, find (fun i => String.eqb (_id i) id) catalog = Some i
            /\ In i catalog /\ _id i = id.
Proof.
  intros [i [Hin Hid]].
  destruct (find (fun i => String.eqb (_id i) id) catalog) as [j|] eqn:E.
  - apply find_some in E as [Hj Hjid]. apply String.eqb_eq in Hjid. eauto.
  - exfalso. apply (find_none _ _ E) in Hin. simpl in Hin.
    rewrite Hid, String.eqb_refl in Hin. discriminate.
Qed.

Lemma find_by_id_none id :
  (forall i, In i catalog -> _id i <> id) ->
  find (fun i => String.eqb (_id i) id) catalog = None.
Proof.
  intros Hno.
  destruct (find (fun i => String.eqb (_id i) id) catalog) as [j|] eqn:E;
    [|reflexivity].
  apply find_some in E as [Hj Hjid]. apply String.eqb_eq in Hjid.
  exfalso. exact (Hno j Hj Hjid).
Qed.

Lemma resolve_one_length id : length (resolve_one catalog id) <= 1.
Proof. unfold resolve_one. destruct (find _ catalog); simpl; lia. Qed.

Lemma names_length_le ids :
  length (selectedIngredientNames ids catalog) <= length ids.
Proof.
  induction ids as [|id ids IH]; [simpl; lia|].
  rewrite names_cons, length_app. pose proof (resolve_one_length id).
  simpl. lia.
Qed.

(** One unmatched id makes the name list strictly shorter. *)
Lemma names_length_lt ids id :
  In id ids -> (forall i, In i catalog -> _id i <> id) ->
  length (selectedIngredientNames ids catalog) < length ids.
Proof.
  induction ids as [|x ids IH]; intros Hin Hno; [destruct Hin|].
  rewrite names_cons, length_app. simpl.
  destruct Hin as [->|Hin].
  - unfold resolve_one. rewrite (find_by_id_none Hno). simpl.
    pose proof (names_length_le ids). lia.
  - pose proof (resolve_one_length x). specialize (IH Hin Hno). lia.
Qed.

(** One matched id makes the name list non-empty. *)
Lemma names_nonempty ids id :
  In id ids -> (exists i, In i catalog /\ _id i = id) ->
  selectedIngredientNames ids catalog <> [].
Proof.
  intros Hin Hex. apply find_by_id in Hex as [i [Hfind _]].
  apply in_split in Hin as [l1 [l2 ->]].
  rewrite names_app, names_cons. unfold resolve_one. rewrite Hfind.
  destruct (selectedIngredientNames l1 catalog); discriminate.
Qed.

Lemma names_none ids :
  (forall id i, In id ids -> In i catalog -> _id i <> id) ->
  selectedIngredientNames ids catalog = [].
Proof.
  induction ids as [|x ids IH]; intros Hno; [reflexivity|].
  rewrite names_cons. unfold resolve_one.
  rewrite find_by_id_none.
  - apply IH. intros id i Hid. apply Hno. right. exact Hid.
  - intros i. apply Hno. left. reflexivity.
Qed.

Lemma names_all_resolved ids :
  (forall id, In id ids -> exists i, In i catalog /\ _id i = id) ->
  Forall2 (resolves_to catalog) ids (selectedIngredientNames ids catalog).
Proof.
  induction ids as [|x ids IH]; intros Hall.
  - constructor.
  - rewrite names_cons.
    destruct (find_by_id (Hall x (or_introl eq_refl))) as [i [Hfind [Hin Hid]]].
    unfold resolve_one. rewrite Hfind. simpl. constructor.
    + exists i. auto.
    + apply IH. intros id Hid'. apply Hall. right. exact Hid'.
Qed.

End NameResolution.

(** The first entry with a given id shadows every later one. *)
Lemma find_first_match (pre post : list Ingredient) (i : Ingredient) :
  (forall j, In j pre -> _id j <> _id i) ->
  find (fun j => String.eqb (_id j) (_id i)) (pre ++ i :: post) = Some i.
Proof.
  induction pre as [|j pre IH]; intros Hpre; simpl.
  - rewrite String.eqb_refl. reflexivity.
  - destruct (String.eqb_spec (_id j) (_id i)) as [E|_].
    + exfalso. exact (Hpre j (or_introl eq_refl) E).
    + apply IH. intros k Hk. apply Hpre. right. exact Hk.
Qed.

Lemma names_count (catalog : list Ingredient) (i : Ingredient) (ids : list string) :
  find (fun j => String.eqb (_id j) (_id i)) catalog = Some i ->
  count_occ string_dec ids (_id i)
  <= count_occ string_dec (selectedIngredientNames ids catalog) (name i).
Proof.
  intros Hfind. induction ids as [|x ids IH]; [simpl; lia|].
  rewrite names_cons, count_occ_app. simpl.
  destruct (string_dec x (_id i)) as [->|_].
  - unfold resolve_one. rewrite Hfind. simpl.
    destruct (string_dec (name i) (name i)); [lia|congruence].
  - lia.
Qed.

(** ** The handler, one call at a time *)

Section Handler.

Variable net : request -> settlement.

Lemma handler_eq props :
  handleGenerateRecipe props =
  match selectedIngredientIds props with
  | [] => Emit (SetError (Some "Please select ingredients first.")) (Ret tt)
  | _ :: _ =>
    Emit (SetIsGenerating true) (Emit (SetError None)
     (match selectedIngredientNames (selectedIngredientIds props) (ingredients props) with
      | [] => Emit (SetError (Some "Could not find names for selected ingredients."))
                (Emit (SetIsGenerating false) (Ret tt))
      | (_ :: _) as names =>
        if Nat.eqb (length names) (length (selectedIngredientIds props))
        then generating props names
        else Emit (ConsoleWarn mismatch_warning) (generating props names)
      end))
  end.
Proof.
  unfold handleGenerateRecipe.
  destruct (selectedIngredientIds props) as [|id ids]; [reflexivity|].
  destruct (selectedIngredientNames (id :: ids) (ingredients props)) as [|n ns].
  - reflexivity.
  - cbn [length Nat.eqb andb].
    destruct (Nat.eqb _ _); reflexivity.
Qed.

Lemma generating_trace props names :
  trace net (generating props names) =
  Did (ConsoleLog (sending_log names)) :: Did (ConsoleLog (generating_log names)) ::
  Sent (generate_request names) :: Settled (net (generate_request names)) ::
  completion props (net (generate_request names)).
Proof.
  unfold trace, generating, completion, generate_request. cbn.
  destruct (net _) as [resp|e]; cbn; [|reflexivity].
  destruct (Js.truthy (data resp)); cbn; [|reflexivity].
  destruct (Js.truthy (Js.get "recipe" (data resp))); cbn; [|reflexivity].
  destruct (onRecipeGenerated props _); reflexivity.
Qed.

Lemma generating_result props names :
  result net (generating props names) = Returned tt.
Proof.
  unfold result, generating, generate_request. cbn.
  destruct (net _) as [resp|e]; cbn; [|reflexivity].
  destruct (Js.truthy (data resp)); cbn; [|reflexivity].
  destruct (Js.truthy (Js.get "recipe" (data resp))); cbn; [|reflexivity].
  destruct (onRecipeGenerated props _); reflexivity.
Qed.

(** The three shapes of a call, as traces. *)
Lemma handler_trace_empty props :
  selectedIngredientIds props = [] ->
  trace net (handleGenerateRecipe props) =
  [Did (SetError (Some "Please select ingredients first."))].
Proof. intros E. rewrite handler_eq, E. reflexivity. Qed.

Lemma handler_trace_unresolved props :
  selectedIngredientIds props <> [] ->
  selectedIngredientNames (selectedIngredientIds props) (ingredients props) = [] ->
  trace net (handleGenerateRecipe props) =
  [Did (SetIsGenerating true); Did (SetError None);
   Did (SetError (Some "Could not find names for selected ingredients."));
   Did (SetIsGenerating false)].
Proof.
  intros Hids Hnames. rewrite handler_eq, Hnames.
  destruct (selectedIngredientIds props); [contradiction|reflexivity].
Qed.

Lemma handler_trace_generating props :
  let ids := selectedIngredientIds props in
  let names := selectedIngredientNames ids (ingredients props) in
  names <> [] ->
  trace net (handleGenerateRecipe props) =
  Did (SetIsGenerating true) :: Did (SetError None) ::
  (if Nat.eqb (length names) (length ids) then [] else [Did (ConsoleWarn mismatch_warning)])
  ++ trace net (generating props names).
Proof.
  intros ids names Hnames. subst ids names. rewrite handler_eq.
  destruct (selectedIngredientIds props) as [|id ids] eqn:Eids;
    [exfalso; apply Hnames; reflexivity|].
  destruct (selectedIngredientNames (id :: ids) (ingredients props)) as [|n ns];
    [contradiction|].
  unfold trace. cbn [run fst].
  destruct (Nat.eqb _ _); cbn [run fst app];
    destruct (run net (generating props (n :: ns))); reflexivity.
Qed.

(** Whatever happens, the handler itself returns normally. *)
Lemma handler_result props : result net (handleGenerateRecipe props) = Returned tt.
Proof.
  unfold result. rewrite handler_eq.
  destruct (selectedIngredientIds props); [reflexivity|].
  destruct (selectedIngredientNames _ _) as [|n ns]; [reflexivity|].
  cbv beta iota zeta.
  pose proof (generating_result props (n :: ns)) as R. unfold result in R.
  destruct (Nat.eqb _ _); cbn [run snd];
    destruct (run net (generating props (n :: ns))); exact R.
Qed.

Lemma completion_requests props s : requests (completion props s) = [].
Proof.
  destruct s as [resp|e]; simpl; [|reflexivity].
  destruct (_ && _); simpl; [|reflexivity].
  destruct (onRecipeGenerated props _); reflexivity.
Qed.

Lemma completion_warnings props s : warnings (completion props s) = [].
Proof.
  destruct s as [resp|e]; simpl; [|reflexivity].
  destruct (_ && _); simpl; [|reflexivity].
  destruct (onRecipeGenerated props _); reflexivity.
Qed.

Lemma handler_requests props :
  let names := selectedIngredientNames (selectedIngredientIds props) (ingredients props) in
  names <> [] ->
  requests (trace net (handleGenerateRecipe props)) = [generate_request names].
Proof.
  intros names Hnames. rewrite (handler_trace_generating props Hnames).
  rewrite generating_trace. fold names.
  destruct (Nat.eqb _ _); simpl; rewrite completion_requests; reflexivity.
Qed.

End Handler.

(** C1. When the selection is non-empty and every selected id has a catalog
    entry with that id, the handler sends exactly one request, the one
    [generateRecipe names] makes, where [names] has the length of the
    selection and holds, position by position, the name of the catalog entry
    matching the selected id at that position. *)
Theorem generate_sends_every_name (net : request -> settlement) (props : RecipeGeneratorProps) :
  selectedIngredientIds props <> [] ->
  (forall id, In id (selectedIngredientIds props) ->
              exists i, In i (ingredients props) /\ _id i = id) ->
  exists names,
    requests (trace net (handleGenerateRecipe props)) = [generate_request names]
    /\ In (Did (ConsoleLog (sending_log names))) (trace net (handleGenerateRecipe props))
    /\ length names = length (selectedIngredientIds props)
    /\ Forall2 (resolves_to (ingredients props)) (selectedIngredientIds props) names.
Proof.
  intros Hne Hall.
  pose proof (@names_all_resolved _ _ Hall) as HF.
  pose proof (Forall2_length HF) as Hlen.
  assert (Hnames : selectedIngredientNames (selectedIngredientIds props)
                     (ingredients props) <> []).
  { intros E. rewrite E in Hlen. destruct (selectedIngredientIds props);
      [contradiction|discriminate]. }
  exists (selectedIngredientNames (selectedIngredientIds props) (ingredients props)).
  repeat split.
  - apply handler_requests. exact Hnames.
  - rewrite (handler_trace_generating net props Hnames), generating_trace.
    rewrite <- Hlen, Nat.eqb_refl. simpl. auto.
  - symmetry. exact Hlen.
  - exact HF.
Qed.

Lemma generate_sends_every_name_witness :
  exists names,
    requests (trace net_ok (handleGenerateRecipe (mkProps ["a"; "b"] no_throw [egg; milk])))
    = [generate_request names]
    /\ In (Did (ConsoleLog (sending_log names)))
          (trace net_ok (handleGenerateRecipe (mkProps ["a"; "b"] no_throw [egg; milk])))
    /\ length names = 2
    /\ Forall2 (resolves_to [egg; milk]) ["a"; "b"] names.
Proof.
  apply (generate_sends_every_name net_ok (mkProps ["a"; "b"] no_throw [egg; milk])).
  - simpl. discriminate.
  - simpl. intros id [<-|[<-|[]]]; [exists egg|exists milk]; simpl; auto.
Defined.

(** The example of the specification: ids a, b with Egg and Milk. *)
Example generate_egg_milk :
  requests (trace net_ok (handleGenerateRecipe (mkProps ["a"; "b"] no_throw [egg; milk])))
  = [generate_request ["Egg"; "Milk"]].
Proof. reflexivity. Qed.

(** C2, as amended. With an empty selection the handler records the message
    "Please select ingredients first." and returns: that is its only effect,
    so no request is sent and the in-progress flag is never written. *)
Theorem generate_empty_selection
        (net : request -> settlement) (cb : Js.value -> option Js.exn)
        (catalog : list Ingredient) :
  trace net (handleGenerateRecipe (mkProps [] cb catalog))
  = [Did (SetError (Some "Please select ingredients first."))]
  /\ result net (handleGenerateRecipe (mkProps [] cb catalog)) = Returned tt
  /\ requests (trace net (handleGenerateRecipe (mkProps [] cb catalog))) = []
  /\ flag_writes (trace net (handleGenerateRecipe (mkProps [] cb catalog))) = [].
Proof. repeat split. Qed.

(** C2, as stated, fails on the message: the one the handler records is not
    "no ingredients selected". *)
Lemma generate_empty_selection_message :
  error (state_after (trace net_ok (handleGenerateRecipe (mkProps [] no_throw [egg; milk])))
                     initial_state)
  <> Some "no ingredients selected".
Proof. simpl. discriminate. Qed.

(** C3, as amended. When the selection is non-empty and no selected id has a
    catalog entry, the handler sets the flag, clears the error, records the
    message "Could not find names for selected ingredients.", clears the flag
    and returns; no request is sent. *)
Theorem generate_nothing_resolves (net : request -> settlement) (props : RecipeGeneratorProps) :
  selectedIngredientIds props <> [] ->
  (forall id i, In id (selectedIngredientIds props) -> In i (ingredients props) ->
                _id i <> id) ->
  trace net (handleGenerateRecipe props)
  = [Did (SetIsGenerating true); Did (SetError None);
     Did (SetError (Some "Could not find names for selected ingredients."));
     Did (SetIsGenerating false)]
  /\ result net (handleGenerateRecipe props) = Returned tt
  /\ requests (trace net (handleGenerateRecipe props)) = []
  /\ state_after (trace net (handleGenerateRecipe props)) initial_state
     = mkState false (Some "Could not find names for selected ingredients.").
Proof.
  intros Hne Hno. pose proof (@names_none _ _ Hno) as Hnames.
  rewrite (handler_trace_unresolved net props Hne Hnames).
  repeat split. apply handler_result.
Qed.

Lemma generate_nothing_resolves_witness :
  trace net_ok (handleGenerateRecipe (mkProps ["x"; "y"] no_throw [egg; milk]))
  = [Did (SetIsGenerating true); Did (SetError None);
     Did (SetError (Some "Could not find names for selected ingredients."));
     Did (SetIsGenerating false)]
  /\ result net_ok (handleGenerateRecipe (mkProps ["x"; "y"] no_throw [egg; milk]))
     = Returned tt
  /\ requests (trace net_ok (handleGenerateRecipe (mkProps ["x"; "y"] no_throw [egg; milk])))
     = []
  /\ state_after (trace net_ok (handleGenerateRecipe (mkProps ["x"; "y"] no_throw [egg; milk])))
                 initial_state
     = mkState false (Some "Could not find names for selected ingredients.").
Proof.
  apply (generate_nothing_resolves net_ok (mkProps ["x"; "y"] no_throw [egg; milk])).
  - simpl. discriminate.
  - simpl. intros id i [<-|[<-|[]]] [<-|[<-|[]]]; simpl; discriminate.
Defined.

(** C3, as stated, fails on the message: the one the handler records is not
    "no resolvable ingredient names". *)
Lemma generate_nothing_resolves_message :
  error (state_after
           (trace net_ok (handleGenerateRecipe (mkProps ["x"; "y"] no_throw [egg; milk])))
           initial_state)
  <> Some "no resolvable ingredient names".
Proof. simpl. discriminate. Qed.

(** C4. When at least one selected id has a catalog entry and at least one
    has none, the handler warns on the console and goes on: it records no
    error before the request, and the one request it sends is that of
    [generateRecipe] on the names of the matched ids, in selection order,
    the unmatched ids contributing nothing. *)
Theorem generate_partial_match (net : request -> settlement) (props : RecipeGeneratorProps) :
  (exists id, In id (selectedIngredientIds props)
              /\ exists i, In i (ingredients props) /\ _id i = id) ->
  (exists id, In id (selectedIngredientIds props)
              /\ forall i, In i (ingredients props) -> _id i <> id) ->
  let names := flat_map (resolve_one (ingredients props)) (selectedIngredientIds props) in
  names <> []
  /\ length names < length (selectedIngredientIds props)
  /\ requests (trace net (handleGenerateRecipe props)) = [generate_request names]
  /\ warnings (trace net (handleGenerateRecipe props)) = [mismatch_warning]
  /\ result net (handleGenerateRecipe props) = Returned tt
  /\ exists rest,
       trace net (handleGenerateRecipe props)
       = Did (SetIsGenerating true) :: Did (SetError None)
         :: Did (ConsoleWarn mismatch_warning)
         :: Did (ConsoleLog (sending_log names))
         :: Did (ConsoleLog (generating_log names))
         :: Sent (generate_request names) :: rest.
Proof.
  intros [a [Ha Hmatch]] [b [Hb Hnone]] names.
  assert (E : names = selectedIngredientNames (selectedIngredientIds props)
                                              (ingredients props))
    by (symmetry; apply names_flat_map).
  assert (Hne : names <> []) by (rewrite E; apply names_nonempty with (id := a); assumption).
  assert (Hlt : length names < length (selectedIngredientIds props))
    by (rewrite E; apply names_length_lt with (id := b); assumption).
  assert (Hneq : Nat.eqb (length names) (length (selectedIngredientIds props)) = false)
    by (apply Nat.eqb_neq; lia).
  assert (Htr : trace net (handleGenerateRecipe props)
                = Did (SetIsGenerating true) :: Did (SetError None)
                  :: Did (ConsoleWarn mismatch_warning) :: trace net (generating props names)).
  { rewrite E in Hne. rewrite (handler_trace_generating net props Hne).
    rewrite <- E, Hneq. reflexivity. }
  repeat split; try assumption.
  - rewrite E. apply handler_requests. rewrite <- E. exact Hne.
  - rewrite Htr, generating_trace. simpl. rewrite completion_warnings. reflexivity.
  - apply handler_result.
  - rewrite Htr, generating_trace. eexists. reflexivity.
Qed.

Lemma generate_partial_match_witness :
  let props := mkProps ["a"; "x"] no_throw [egg] in
  let names := flat_map (resolve_one [egg]) ["a"; "x"] in
  names <> []
  /\ length names < 2
  /\ requests (trace net_ok (handleGenerateRecipe props)) = [generate_request names]
  /\ warnings (trace net_ok (handleGenerateRecipe props)) = [mismatch_warning]
  /\ result net_ok (handleGenerateRecipe props) = Returned tt
  /\ exists rest,
       trace net_ok (handleGenerateRecipe props)
       = Did (SetIsGenerating true) :: Did (SetError None)
         :: Did (ConsoleWarn mismatch_warning)
         :: Did (ConsoleLog (sending_log names))
         :: Did (ConsoleLog (generating_log names))
         :: Sent (generate_request names) :: rest.
Proof.
  apply (generate_partial_match net_ok (mkProps ["a"; "x"] no_throw [egg])).
  - exists "a". simpl. split; [auto|]. exists egg. auto.
  - exists "x". simpl. split; [auto|]. intros i [<-|[]]. simpl. discriminate.
Defined.

(** The example of the specification: ids a, x with only Egg in the catalog. *)
Example generate_egg_only :
  requests (trace net_ok (handleGenerateRecipe (mkProps ["a"; "x"] no_throw [egg])))
  = [generate_request ["Egg"]]
  /\ warnings (trace net_ok (handleGenerateRecipe (mkProps ["a"; "x"] no_throw [egg])))
     = [mismatch_warning].
Proof. split; reflexivity. Qed.

(** C10. Each occurrence of a selected id is resolved on its own: the names
    sent are the concatenation, in selection order, of what each occurrence
    resolves to, so an id selected several times contributes its name as
    many times; and an id carried by several catalog entries resolves to the
    name of the first of them. *)
Theorem generate_duplicates
        (net : request -> settlement) (cb : Js.value -> option Js.exn)
        (pre post : list Ingredient) (i : Ingredient) (ids : list string) :
  (forall j, In j pre -> _id j <> _id i) ->
  In (_id i) ids ->
  let catalog := pre ++ i :: post in
  let names := flat_map (resolve_one catalog) ids in
  resolve_one catalog (_id i) = [name i]
  /\ requests (trace net (handleGenerateRecipe (mkProps ids cb catalog)))
     = [generate_request names]
  /\ count_occ string_dec ids (_id i) <= count_occ string_dec names (name i)
  /\ forall n, selectedIngredientNames (repeat (_id i) n) catalog = repeat (name i) n.
Proof.
  intros Hpre Hin catalog names.
  pose proof (find_first_match pre post i Hpre) as Hfind. fold catalog in Hfind.
  assert (Hone : resolve_one catalog (_id i) = [name i])
    by (unfold resolve_one; rewrite Hfind; reflexivity).
  assert (E : names = selectedIngredientNames ids catalog)
    by (symmetry; apply names_flat_map).
  repeat split.
  - exact Hone.
  - rewrite E. apply (handler_requests net (mkProps ids cb catalog)). simpl.
    apply names_nonempty with (id := _id i); [exact Hin|].
    exists i. split; [|reflexivity]. unfold catalog. apply in_elt.
  - rewrite E. apply names_count. exact Hfind.
  - induction n as [|n IH]; [reflexivity|].
    simpl repeat. rewrite names_cons, Hone, IH. reflexivity.
Qed.

Lemma generate_duplicates_witness :
  let catalog := [] ++ egg :: [milk; eggnog] in
  let names := flat_map (resolve_one catalog) ["a"; "b"; "a"] in
  resolve_one catalog "a" = ["Egg"]
  /\ requests (trace net_ok (handleGenerateRecipe (mkProps ["a"; "b"; "a"] no_throw catalog)))
     = [generate_request names]
  /\ count_occ string_dec ["a"; "b"; "a"] "a" <= count_occ string_dec names "Egg"
  /\ forall n, selectedIngredientNames (repeat "a" n) catalog = repeat "Egg" n.
Proof.
  apply (generate_duplicates net_ok no_throw [] [milk; eggnog] egg ["a"; "b"; "a"]).
  - intros j [].
  - simpl. auto.
Defined.

(** An id selected twice, and carried by two catalog entries. *)
Example generate_egg_twice :
  requests (trace net_ok (handleGenerateRecipe
                            (mkProps ["a"; "b"; "a"] no_throw [egg; milk; eggnog])))
  = [generate_request ["Egg"; "Milk"; "Egg"]].
Proof. reflexivity. Qed.

(** ** The service client *)

Section Client.

Variable net : request -> settlement.

Lemma truthy_get_has_field key v :
  Js.truthy (Js.get key v) = true -> Js.has_field key v = true /\ Js.truthy v = true.
Proof.
  destruct v; simpl; try discriminate.
  destruct (Js.lookup key fields); simpl; [auto|discriminate].
Qed.

(** The guard [!response.data || !response.data.key] in terms of the field. *)
Lemma guard_eq key v :
  negb (Js.truthy v) || negb (Js.truthy (Js.get key v))
  = negb (Js.has_field key v && Js.truthy (Js.get key v)).
Proof.
  destruct (Js.truthy (Js.get key v)) eqn:E.
  - destruct (truthy_get_has_field key v E) as [-> ->]. reflexivity.
  - rewrite andb_false_r, orb_true_r. reflexivity.
Qed.

Lemma addIngredient_result ingredientName :
  result net (Api.addIngredient ingredientName)
  = unwrapped "item" malformed_item (net (add_request ingredientName)).
Proof.
  unfold result, Api.addIngredient, add_request, unwrapped. cbn.
  destruct (net _) as [resp|e]; cbn; [|reflexivity].
  rewrite guard_eq.
  destruct (Js.has_field "item" (data resp) && Js.truthy (Js.get "item" (data resp)));
    reflexivity.
Qed.

Lemma generateRecipe_result ingredientNames :
  result net (Api.generateRecipe ingredientNames)
  = unwrapped "recipe" malformed_recipe (net (generate_request ingredientNames)).
Proof.
  unfold result, Api.generateRecipe, generate_request, unwrapped. cbn.
  destruct (net _) as [resp|e]; cbn; [|reflexivity].
  rewrite guard_eq.
  destruct (Js.has_field "recipe" (data resp) && Js.truthy (Js.get "recipe" (data resp)));
    reflexivity.
Qed.

Lemma addIngredient_requests ingredientName :
  requests (trace net (Api.addIngredient ingredientName)) = [add_request ingredientName].
Proof.
  unfold trace, Api.addIngredient, add_request. cbn.
  destruct (net _) as [resp|e]; cbn; [|reflexivity].
  destruct (negb _ || negb _); reflexivity.
Qed.

Lemma generateRecipe_requests ingredientNames :
  requests (trace net (Api.generateRecipe ingredientNames))
  = [generate_request ingredientNames].
Proof.
  unfold trace, Api.generateRecipe, generate_request. cbn.
  destruct (net _) as [resp|e]; cbn; [|reflexivity].
  destruct (negb _ || negb _); reflexivity.
Qed.

End Client.

(** C6, as amended. Whatever the status of the response, [addIngredient]
    (resp. [generateRecipe]) returns the value of the field [item] (resp.
    [recipe]) of the body when the field is there and its value is truthy,
    as every object is; it throws its invalid-response error when the field
    is missing or holds a falsy value, and rethrows a transport error. *)
Theorem client_unwraps_envelope (net : request -> settlement)
        (ingredientName : string) (ingredientNames : list string) :
  result net (Api.addIngredient ingredientName)
  = match net (add_request ingredientName) with
    | Resolved resp =>
        if Js.has_field "item" (data resp) && Js.truthy (Js.get "item" (data resp))
        then Returned (Js.get "item" (data resp))
        else Threw (Js.Error "Invalid response structure from addIngredient API")
    | Rejected e => Threw e
    end
  /\ result net (Api.generateRecipe ingredientNames)
     = match net (generate_request ingredientNames) with
       | Resolved resp =>
           if Js.has_field "recipe" (data resp) && Js.truthy (Js.get "recipe" (data resp))
           then Returned (Js.get "recipe" (data resp))
           else Threw (Js.Error "Invalid response structure from generateRecipe API")
       | Rejected e => Threw e
       end.
Proof. split; [apply addIngredient_result | apply generateRecipe_result]. Qed.

(** C6, as stated, fails when the field is there with a falsy value: the
    body has an [item], and [addIngredient] throws instead of returning it. *)
Lemma client_rejects_falsy_field :
  let body := Js.Obj [("message", Js.Str "Item added"); ("item", Js.Num 0)] in
  let net := fun _ : request => Resolved (mkResponse 201 body) in
  Js.has_field "item" body = true
  /\ result net (Api.addIngredient "Egg") <> Returned (Js.get "item" body)
  /\ result net (Api.addIngredient "Egg")
     = Threw (Js.Error "Invalid response structure from addIngredient API").
Proof. repeat split. simpl. discriminate. Qed.

(** C8. [generateRecipe names] sends one request: a POST to
    [/recipes/basket/generate-recipe], relative to a base URL ending in
    [/api/], whose body is the object with the single field [items] holding
    the names; [addIngredient name] sends one POST to [/items/add] whose body
    is the object with the single field [item] holding the name. *)
Theorem client_post_requests (net : request -> settlement)
        (ingredientName : string) (ingredientNames : list string) :
  requests (trace net (Api.generateRecipe ingredientNames))
  = [mkRequest POST Api.API_BASE_URL Api.api_headers "/recipes/basket/generate-recipe"
               (Some (Js.Obj [("items", Js.Arr (map Js.Str ingredientNames))]))]
  /\ requests (trace net (Api.addIngredient ingredientName))
     = [mkRequest POST Api.API_BASE_URL Api.api_headers "/items/add"
                  (Some (Js.Obj [("item", Js.Str ingredientName)]))]
  /\ exists origin, Api.API_BASE_URL = (origin ++ "/api/")%string.
Proof.
  split; [apply generateRecipe_requests|].
  split; [apply addIngredient_requests|].
  exists "https://recipe-generator-backend-vqb7.onrender.com". reflexivity.
Qed.

(** C9. [fetchIngredients] sends one GET to [/items] and [fetchRecipeHistory]
    one GET to [/recipes/history]; each returns the body of the response as
    it is, and throws the very error the transport rejected with. *)
Theorem client_get_passthrough (net : request -> settlement) :
  (requests (trace net Api.fetchIngredients) = [get_request "/items"]
   /\ result net Api.fetchIngredients
      = match net (get_request "/items") with
        | Resolved resp => Returned (data resp)
        | Rejected e => Threw e
        end)
  /\ (requests (trace net Api.fetchRecipeHistory) = [get_request "/recipes/history"]
      /\ result net Api.fetchRecipeHistory
         = match net (get_request "/recipes/history") with
           | Resolved resp => Returned (data resp)
           | Rejected e => Threw e
           end).
Proof.
  unfold trace, result, Api.fetchIngredients, Api.fetchRecipeHistory, get_request. cbn.
  split; split; destruct (net _); reflexivity.
Qed.

(** ** The mounted component *)

Section Component.

(** The [try] statement suspends on its request, and what stays in flight
    clears the flag whichever way the request settles and whatever the
    parent's callback does. *)
Lemma advance_generating props names c :
  exists k,
    advance (generating props names) c
    = mkComponent (cstate c) (inflight c ++ [k]) (sent c ++ [generate_request names])
    /\ clears_flag k.
Proof.
  eexists. split; [destruct c as [[g e] fl sn]; reflexivity|].
  intros s c'. destruct s as [resp|e]; cbn; [|auto].
  destruct (Js.truthy (data resp)); cbn; [|auto].
  destruct (Js.truthy (Js.get "recipe" (data resp))); cbn; [|auto].
  destruct (onRecipeGenerated props _); cbn; auto.
Qed.

(** A call of the handler either ends at once, with the flag as it was
    (empty selection) or down (nothing resolved), or leaves one more request
    in flight with the flag up. *)
Lemma advance_handler props c :
  (inflight (advance (handleGenerateRecipe props) c) = inflight c
   /\ sent (advance (handleGenerateRecipe props) c) = sent c
   /\ (isGenerating (cstate (advance (handleGenerateRecipe props) c)) = false
       \/ (selectedIngredientIds props = []
           /\ isGenerating (cstate (advance (handleGenerateRecipe props) c))
              = isGenerating (cstate c))))
  \/ (exists k,
        inflight (advance (handleGenerateRecipe props) c) = inflight c ++ [k]
        /\ clears_flag k
        /\ isGenerating (cstate (advance (handleGenerateRecipe props) c)) = true
        /\ sent (advance (handleGenerateRecipe props) c)
           = sent c ++ [generate_request
                          (selectedIngredientNames (selectedIngredientIds props)
                                                   (ingredients props))]).
Proof.
  rewrite handler_eq.
  destruct (selectedIngredientIds props) as [|id ids].
  - left. cbn. auto.
  - destruct (selectedIngredientNames (id :: ids) (ingredients props)) as [|n ns].
    + left. cbn. auto.
    + right. cbv beta iota zeta.
      destruct (Nat.eqb _ _); cbn [advance];
        match goal with
        | |- context [advance (generating ?p ?l) ?c0] =>
            destruct (advance_generating p l c0) as [k [E Hk]];
            exists k; rewrite E; cbn; auto
        end.
Qed.

Lemma click_preserves props c : idle_or_pending c -> idle_or_pending (click props c).
Proof.
  intros Hc. unfold click, button_disabled.
  destruct (isGenerating (cstate c)) eqn:Hflag; cbn [orb]; [exact Hc|].
  destruct (Nat.eqb_spec (length (selectedIngredientIds props)) 0) as [|Hlen];
    [exact Hc|].
  destruct Hc as [[Hfl _]|[k [_ [_ Hup]]]]; [|congruence].
  destruct (advance_handler props c) as [[Hin [_ [Hdown|[Hids _]]]]|[k [Hin [Hk [Hup _]]]]].
  - left. rewrite Hin. auto.
  - rewrite Hids in Hlen. contradiction.
  - right. exists k. rewrite Hin, Hfl. auto.
Qed.

Lemma settle_preserves i s c : idle_or_pending c -> idle_or_pending (settle i s c).
Proof.
  intros Hc. unfold settle.
  destruct Hc as [[Hfl Hdown]|[k [Hfl [Hk Hup]]]].
  - rewrite Hfl. destruct i; simpl; left; auto.
  - rewrite Hfl. destruct i as [|i]; simpl.
    + destruct (Hk s (mkComponent (cstate c) [] (sent c))) as [Hdown [Hin _]].
      left. auto.
    + destruct i; simpl; right; exists k; auto.
Qed.

Lemma after_snoc actions a : after (actions ++ [a]) = step (after actions) a.
Proof. unfold after. rewrite fold_left_app. reflexivity. Qed.

(** The invariant of the component, from mounting on. *)
Lemma after_idle_or_pending actions : idle_or_pending (after actions).
Proof.
  induction actions as [|a actions IH] using rev_ind.
  - left. split; reflexivity.
  - rewrite after_snoc. destruct a as [props|i s]; simpl.
    + apply click_preserves. exact IH.
    + apply settle_preserves. exact IH.
Qed.

End Component.

(** What one call does to the flag, read off its trace. *)
Lemma handler_flag (net : request -> settlement) (props : RecipeGeneratorProps)
      (e : option string) :
  isGenerating (state_after (trace net (handleGenerateRecipe props)) (mkState false e))
  = false
  /\ flag_during_network (mkState false e) (trace net (handleGenerateRecipe props))
     = match selectedIngredientNames (selectedIngredientIds props) (ingredients props) with
       | [] => []
       | _ :: _ => [true; true]
       end.
Proof.
  destruct (selectedIngredientNames (selectedIngredientIds props) (ingredients props))
    as [|n ns] eqn:En.
  - destruct (selectedIngredientIds props) as [|id ids] eqn:Eids.
    + rewrite (handler_trace_empty net props Eids). split; reflexivity.
    + rewrite <- Eids in En.
      assert (Hids : selectedIngredientIds props <> []) by (rewrite Eids; discriminate).
      rewrite (handler_trace_unresolved net props Hids En). split; reflexivity.
  - assert (Hne : selectedIngredientNames (selectedIngredientIds props) (ingredients props)
                  <> []) by (rewrite En; discriminate).
    rewrite (handler_trace_generating net props Hne), generating_trace, En.
    unfold completion, on_error.
    destruct (Nat.eqb _ _); cbn;
      (destruct (net _) as [resp|err]; cbn; [|split; reflexivity]);
      (destruct (Js.truthy (data resp) && Js.truthy (Js.get "recipe" (data resp)));
       cbn; [|split; reflexivity]);
      destruct (onRecipeGenerated props _); split; reflexivity.
Qed.

(** What one call does to the flag from any state: an empty selection does
    not write it, any other call ends with it down, and it is up while the
    request of the call is on the wire. *)
Lemma handler_flag_from (net : request -> settlement) (props : RecipeGeneratorProps)
      (s0 : state) :
  isGenerating (state_after (trace net (handleGenerateRecipe props)) s0)
  = match selectedIngredientIds props with
    | [] => isGenerating s0
    | _ :: _ => false
    end
  /\ flag_during_network s0 (trace net (handleGenerateRecipe props))
     = match selectedIngredientNames (selectedIngredientIds props) (ingredients props) with
       | [] => []
       | _ :: _ => [true; true]
       end.
Proof.
  destruct s0 as [g e0].
  destruct (selectedIngredientNames (selectedIngredientIds props) (ingredients props))
    as [|n ns] eqn:En.
  - destruct (selectedIngredientIds props) as [|id ids] eqn:Eids.
    + rewrite (handler_trace_empty net props Eids). split; reflexivity.
    + rewrite <- Eids in En.
      assert (Hids : selectedIngredientIds props <> []) by (rewrite Eids; discriminate).
      rewrite (handler_trace_unresolved net props Hids En). split; reflexivity.
  - assert (Hne : selectedIngredientNames (selectedIngredientIds props) (ingredients props)
                  <> []) by (rewrite En; discriminate).
    assert (Hids : exists id ids, selectedIngredientIds props = id :: ids).
    { destruct (selectedIngredientIds props) as [|id ids]; [discriminate En|eauto]. }
    destruct Hids as [id [ids Eids]].
    replace (match selectedIngredientIds props with
             | [] => isGenerating (mkState g e0)
             | _ :: _ => false
             end) with false by (rewrite Eids; reflexivity).
    rewrite (handler_trace_generating net props Hne), generating_trace, En.
    unfold completion, on_error.
    destruct (Nat.eqb _ _); cbn;
      (destruct (net _) as [resp|err]; cbn; [|split; reflexivity]);
      (destruct (Js.truthy (data resp) && Js.truthy (Js.get "recipe" (data resp)));
       cbn; [|split; reflexivity]);
      destruct (onRecipeGenerated props _); split; reflexivity.
Qed.

(** C5, as amended. The in-progress flag is down when the component is
    mounted; after any sequence of clicks on the button and settlements it is
    up exactly when a call is in flight, so it is down before such a call
    begins and down again once it has settled, however it settles.  A call
    started with the flag down ends with the flag down on every path (empty
    selection, nothing resolved, response accepted, response rejected,
    transport error, callback throwing an error), and the flag is up both
    when the request is sent and when the request settles.  From any state,
    a call with an empty selection leaves the flag as it was, any other call
    ends with the flag down, and the flag is up while the request of the
    call is on the wire. *)
Theorem in_progress_flag
        (actions : list action) (net : request -> settlement)
        (props : RecipeGeneratorProps) (e : option string) (s0 : state) :
  isGenerating (cstate mounted) = false
  /\ isGenerating (cstate (after actions))
     = negb (Nat.eqb (length (inflight (after actions))) 0)
  /\ isGenerating (state_after (trace net (handleGenerateRecipe props)) (mkState false e))
     = false
  /\ flag_during_network (mkState false e) (trace net (handleGenerateRecipe props))
     = match selectedIngredientNames (selectedIngredientIds props) (ingredients props) with
       | [] => []
       | _ :: _ => [true; true]
       end
  /\ isGenerating (state_after (trace net (handleGenerateRecipe props)) s0)
     = match selectedIngredientIds props with
       | [] => isGenerating s0
       | _ :: _ => false
       end
  /\ flag_during_network s0 (trace net (handleGenerateRecipe props))
     = match selectedIngredientNames (selectedIngredientIds props) (ingredients props) with
       | [] => []
       | _ :: _ => [true; true]
       end.
Proof.
  split; [reflexivity|].
  split; [destruct (after_idle_or_pending actions) as [[-> ->]|[k [-> [_ ->]]]];
          reflexivity|].
  destruct (handler_flag net props e) as [Hend Hwire].
  split; [exact Hend|]. split; [exact Hwire|].
  apply handler_flag_from.
Qed.

(** C5, as stated, fails for calls that start with the flag up, which the
    handler does not refuse.  Entered with an empty selection while the flag
    is up, it returns with the flag still up; entered a second time while its
    first request is in flight, it has a request in flight with the flag down
    as soon as the first one has settled. *)
Lemma in_progress_flag_not_every_call :
  let props := mkProps ["a"; "b"] no_throw [egg; milk] in
  let reentered :=
    settle 0 (net_ok (generate_request ["Egg"; "Milk"]))
           (call_handler props (call_handler props mounted)) in
  isGenerating (state_after
                  (trace net_ok (handleGenerateRecipe (mkProps [] no_throw [egg; milk])))
                  (mkState true None)) = true
  /\ isGenerating (cstate (call_handler props mounted)) = true
  /\ length (inflight reentered) = 1
  /\ isGenerating (cstate reentered) = false.
Proof. repeat split. Qed.

(** C7, as amended. The guard is the button, not the handler: from mounting
    on, and whatever the order of clicks and settlements, at most one call is
    in flight, and a click that comes while one is in flight is dropped by
    the disabled button: it changes nothing and sends nothing. *)
Theorem single_flight (actions : list action) (props : RecipeGeneratorProps) :
  length (inflight (after actions)) <= 1
  /\ (inflight (after actions) <> [] ->
      click props (after actions) = after actions
      /\ sent (after (actions ++ [Click props])) = sent (after actions)).
Proof.
  destruct (after_idle_or_pending actions) as [[Hfl _]|[k [Hfl [_ Hup]]]].
  - rewrite Hfl. split; [simpl; lia|]. intros H. contradiction.
  - rewrite Hfl. split; [simpl; lia|]. intros _.
    assert (E : click props (after actions) = after actions)
      by (unfold click, button_disabled; rewrite Hup; reflexivity).
    split; [exact E|]. rewrite after_snoc. simpl. rewrite E. reflexivity.
Qed.

Lemma single_flight_witness :
  let props := mkProps ["a"; "b"] no_throw [egg; milk] in
  length (inflight (after [Click props])) <= 1
  /\ click props (after [Click props]) = after [Click props]
  /\ sent (after ([Click props] ++ [Click props])) = sent (after [Click props]).
Proof.
  intros props.
  destruct (single_flight [Click props] props) as [Hle Hdrop].
  split; [exact Hle|]. apply Hdrop. vm_compute. discriminate.
Defined.

(** Two clicks, then the settlement: one request was sent. *)
Example two_clicks_one_request :
  let props := mkProps ["a"; "b"] no_throw [egg; milk] in
  sent (after [Click props; Click props; Settle 0 (net_ok (generate_request ["Egg"; "Milk"]))])
  = [generate_request ["Egg"; "Milk"]]
  /\ cstate (after [Click props; Click props;
                    Settle 0 (net_ok (generate_request ["Egg"; "Milk"]))])
     = mkState false None.
Proof. split; reflexivity. Qed.

(** C7, as stated, fails for the handler itself, which does not look at the
    flag: called again while its first call is still in flight, it sends a
    second request and two calls are in flight. *)
Lemma handler_reentered_sends_twice :
  let props := mkProps ["a"; "b"] no_throw [egg; milk] in
  let pending := call_handler props mounted in
  length (inflight pending) = 1
  /\ isGenerating (cstate pending) = true
  /\ length (inflight (call_handler props pending)) = 2
  /\ sent (call_handler props pending)
     = [generate_request ["Egg"; "Milk"]; generate_request ["Egg"; "Milk"]].
Proof. repeat split. Qed.

(** * Further properties of the handler *)

Section HandlerOutcomes.

Variable net : request -> settlement.
Variable props : RecipeGeneratorProps.

Lemma message_or_default_shown (e : Js.exn) : message_or_default e <> "".
Proof.
  unfold message_or_default.
  destruct (String.eqb_spec (Js.message e) ""); [discriminate|assumption].
Qed.

Lemma state_after_app tr1 tr2 s :
  state_after (tr1 ++ tr2) s = state_after tr2 (state_after tr1 s).
Proof. unfold state_after. apply fold_left_app. Qed.

Lemma callbacks_app tr1 tr2 : callbacks (tr1 ++ tr2) = callbacks tr1 ++ callbacks tr2.
Proof.
  induction tr1 as [|o tr1 IH]; [reflexivity|].
  destruct o as [[]| |]; simpl; rewrite IH; reflexivity.
Qed.

Lemma errors_logged_app tr1 tr2 :
  errors_logged (tr1 ++ tr2) = errors_logged tr1 ++ errors_logged tr2.
Proof.
  induction tr1 as [|o tr1 IH]; [reflexivity|].
  destruct o as [[]| |]; simpl; rewrite IH; try reflexivity.
  apply app_assoc.
Qed.

(** Once names resolved, the call is: the flag up and the error cleared, the
    warning if any, the two logs, the request and its completion. *)
Lemma handler_trace_split :
  selectedIngredientNames (selectedIngredientIds props) (ingredients props) <> [] ->
  exists prefix,
    trace net (handleGenerateRecipe props)
    = (Did (SetIsGenerating true) :: Did (SetError None) :: prefix)
        ++ Sent (generate_request
                   (selectedIngredientNames (selectedIngredientIds props)
                                            (ingredients props)))
        :: Settled (net (generate_request
                           (selectedIngredientNames (selectedIngredientIds props)
                                                    (ingredients props))))
        :: completion props
             (net (generate_request
                     (selectedIngredientNames (selectedIngredientIds props)
                                              (ingredients props))))
    /\ (forall s, state_after prefix s = s)
    /\ callbacks prefix = [] /\ errors_logged prefix = [] /\ requests prefix = [].
Proof.
  intros Hne.
  rewrite (handler_trace_generating net props Hne), generating_trace.
  destruct (Nat.eqb _ _).
  - eexists [_; _]. simpl. repeat split; destruct s; reflexivity.
  - eexists [_; _; _]. simpl. repeat split; destruct s; reflexivity.
Qed.

Lemma handler_state_after s0 :
  selectedIngredientNames (selectedIngredientIds props) (ingredients props) <> [] ->
  state_after (trace net (handleGenerateRecipe props)) s0
  = state_after
      (completion props
         (net (generate_request
                 (selectedIngredientNames (selectedIngredientIds props)
                                          (ingredients props)))))
      (mkState true None).
Proof.
  intros Hne. destruct (handler_trace_split Hne) as [prefix [-> [Hst _]]].
  rewrite state_after_app. simpl app. unfold state_after at 2. simpl fold_left.
  fold (state_after prefix (mkState true None)). rewrite Hst. reflexivity.
Qed.

Lemma handler_callbacks :
  selectedIngredientNames (selectedIngredientIds props) (ingredients props) <> [] ->
  callbacks (trace net (handleGenerateRecipe props))
  = callbacks
      (completion props
         (net (generate_request
                 (selectedIngredientNames (selectedIngredientIds props)
                                          (ingredients props))))).
Proof.
  intros Hne. destruct (handler_trace_split Hne) as [prefix [-> [_ [Hcb _]]]].
  rewrite callbacks_app. simpl. rewrite Hcb. reflexivity.
Qed.

Lemma handler_errors_logged :
  selectedIngredientNames (selectedIngredientIds props) (ingredients props) <> [] ->
  errors_logged (trace net (handleGenerateRecipe props))
  = errors_logged
      (completion props
         (net (generate_request
                 (selectedIngredientNames (selectedIngredientIds props)
                                          (ingredients props))))).
Proof.
  intros Hne. destruct (handler_trace_split Hne) as [prefix [-> [_ [_ [Hel _]]]]].
  rewrite errors_logged_app. simpl. rewrite Hel. reflexivity.
Qed.

Lemma completion_callbacks_le s : length (callbacks (completion props s)) <= 1.
Proof.
  destruct s as [resp|e]; simpl; [|lia].
  destruct (_ && _); simpl; [|lia].
  destruct (onRecipeGenerated props _); simpl; lia.
Qed.

Lemma handler_trace_quiet :
  selectedIngredientNames (selectedIngredientIds props) (ingredients props) = [] ->
  requests (trace net (handleGenerateRecipe props)) = []
  /\ callbacks (trace net (handleGenerateRecipe props)) = [].
Proof.
  intros Hnone.
  destruct (selectedIngredientIds props) as [|id rest] eqn:Eids.
  - rewrite (handler_trace_empty net props Eids). split; reflexivity.
  - rewrite <- Eids in Hnone.
    assert (Hids : selectedIngredientIds props <> []) by (rewrite Eids; discriminate).
    rewrite (handler_trace_unresolved net props Hids Hnone). split; reflexivity.
Qed.

End HandlerOutcomes.

(** X1. For a parent's callback that returns or throws an [Error] object,
    and a request that settles, whichever way: the handler handles every
    failure itself, so its promise is fulfilled and not rejected; it sends
    at most one request (no retry), and it calls the parent back at most once
    and only when it has sent a request. *)
Theorem handler_settles_once (net : request -> settlement) (props : RecipeGeneratorProps) :
  result net (handleGenerateRecipe props) = Returned tt
  /\ length (requests (trace net (handleGenerateRecipe props))) <= 1
  /\ length (callbacks (trace net (handleGenerateRecipe props)))
     <= length (requests (trace net (handleGenerateRecipe props))).
Proof.
  split; [apply handler_result|].
  destruct (selectedIngredientNames (selectedIngredientIds props) (ingredients props))
    as [|n ns] eqn:En.
  - destruct (handler_trace_quiet net props En) as [-> ->]. simpl. lia.
  - assert (Hne : selectedIngredientNames (selectedIngredientIds props) (ingredients props)
                  <> []) by (rewrite En; discriminate).
    rewrite (handler_requests net props Hne), (handler_callbacks net props Hne).
    pose proof (completion_callbacks_le props
                  (net (generate_request
                          (selectedIngredientNames (selectedIngredientIds props)
                                                   (ingredients props))))).
    simpl. lia.
Qed.

(** X2. When names resolve, the response carries a truthy [recipe] and the
    parent's callback returns, the callback is called exactly once with that
    recipe, no error is logged, and the call ends with the flag down and no
    error, whatever the error cell held before the call. *)
Theorem handler_success
        (net : request -> settlement) (props : RecipeGeneratorProps)
        (resp : response) (s0 : state) :
  let names := selectedIngredientNames (selectedIngredientIds props) (ingredients props) in
  names <> [] ->
  net (generate_request names) = Resolved resp ->
  Js.truthy (Js.get "recipe" (data resp)) = true ->
  onRecipeGenerated props (Js.get "recipe" (data resp)) = None ->
  state_after (trace net (handleGenerateRecipe props)) s0 = mkState false None
  /\ callbacks (trace net (handleGenerateRecipe props)) = [Js.get "recipe" (data resp)]
  /\ errors_logged (trace net (handleGenerateRecipe props)) = [].
Proof.
  intros names Hne Hnet Htruthy Hcb. subst names.
  rewrite (handler_state_after net props s0 Hne), (handler_callbacks net props Hne),
    (handler_errors_logged net props Hne), Hnet.
  destruct (truthy_get_has_field _ _ Htruthy) as [_ Hdata].
  unfold completion. rewrite Hdata, Htruthy, Hcb. repeat split.
Qed.

Lemma handler_success_witness :
  state_after (trace net_ok (handleGenerateRecipe (mkProps ["a"; "b"] no_throw [egg; milk])))
              (mkState false (Some "Network Error"))
  = mkState false None
  /\ callbacks (trace net_ok (handleGenerateRecipe (mkProps ["a"; "b"] no_throw [egg; milk])))
     = [omelette]
  /\ errors_logged (trace net_ok (handleGenerateRecipe (mkProps ["a"; "b"] no_throw [egg; milk])))
     = [].
Proof.
  apply (@handler_success net_ok (mkProps ["a"; "b"] no_throw [egg; milk])
           (mkResponse 201 (Js.Obj [("message", Js.Str "Recipe generated");
                                    ("recipe", omelette)]))
           (mkState false (Some "Network Error"))).
  - simpl. discriminate.
  - reflexivity.
  - reflexivity.
  - reflexivity.
Defined.

(** X3. When names resolve and the transport rejects with [e], the parent's
    callback is not called, [e] is logged by the client and again by the
    handler, and the call ends with the flag down and the error cell holding
    the message of [e], or the fallback text when that message is empty; the
    error cell is never left holding the empty string. *)
Theorem handler_transport_failure
        (net : request -> settlement) (props : RecipeGeneratorProps)
        (e : Js.exn) (s0 : state) :
  let names := selectedIngredientNames (selectedIngredientIds props) (ingredients props) in
  names <> [] ->
  net (generate_request names) = Rejected e ->
  state_after (trace net (handleGenerateRecipe props)) s0
  = mkState false (Some (if String.eqb (Js.message e) ""
                         then "Failed to generate recipe. Please try again."
                         else Js.message e))
  /\ callbacks (trace net (handleGenerateRecipe props)) = []
  /\ errors_logged (trace net (handleGenerateRecipe props)) = [e; e]
  /\ error (state_after (trace net (handleGenerateRecipe props)) s0) <> Some "".
Proof.
  intros names Hne Hnet. subst names.
  rewrite (handler_state_after net props s0 Hne), (handler_callbacks net props Hne),
    (handler_errors_logged net props Hne), Hnet.
  repeat split. simpl. intros H. injection H as H.
  exact (message_or_default_shown e H).
Qed.

Lemma handler_transport_failure_witness :
  state_after (trace net_down (handleGenerateRecipe (mkProps ["a"; "b"] no_throw [egg; milk])))
              initial_state
  = mkState false (Some "Network Error")
  /\ callbacks (trace net_down (handleGenerateRecipe (mkProps ["a"; "b"] no_throw [egg; milk])))
     = []
  /\ errors_logged (trace net_down (handleGenerateRecipe (mkProps ["a"; "b"] no_throw [egg; milk])))
     = [Js.AxiosError "Network Error" "ERR_NETWORK"; Js.AxiosError "Network Error" "ERR_NETWORK"]
  /\ error (state_after
              (trace net_down (handleGenerateRecipe (mkProps ["a"; "b"] no_throw [egg; milk])))
              initial_state) <> Some "".
Proof.
  apply (@handler_transport_failure net_down (mkProps ["a"; "b"] no_throw [egg; milk])
           (Js.AxiosError "Network Error" "ERR_NETWORK") initial_state).
  - simpl. discriminate.
  - reflexivity.
Defined.

(** X4. When names resolve and the response comes back without a truthy
    [recipe], success status or not, the parent's callback is not called and
    the call ends with the flag down and the error cell holding the client's
    invalid-response message. *)
Theorem handler_malformed_response
        (net : request -> settlement) (props : RecipeGeneratorProps)
        (resp : response) (s0 : state) :
  let names := selectedIngredientNames (selectedIngredientIds props) (ingredients props) in
  names <> [] ->
  net (generate_request names) = Resolved resp ->
  Js.truthy (Js.get "recipe" (data resp)) = false ->
  state_after (trace net (handleGenerateRecipe props)) s0
  = mkState false (Some "Invalid response structure from generateRecipe API")
  /\ callbacks (trace net (handleGenerateRecipe props)) = []
  /\ errors_logged (trace net (handleGenerateRecipe props))
     = [Js.Error "Invalid response structure from generateRecipe API";
        Js.Error "Invalid response structure from generateRecipe API"].
Proof.
  intros names Hne Hnet Hfalsy. subst names.
  rewrite (handler_state_after net props s0 Hne), (handler_callbacks net props Hne),
    (handler_errors_logged net props Hne), Hnet.
  unfold completion. rewrite Hfalsy, andb_false_r. repeat split.
Qed.

Lemma handler_malformed_response_witness :
  state_after (trace net_malformed
                     (handleGenerateRecipe (mkProps ["a"; "b"] no_throw [egg; milk])))
              initial_state
  = mkState false (Some "Invalid response structure from generateRecipe API")
  /\ callbacks (trace net_malformed
                      (handleGenerateRecipe (mkProps ["a"; "b"] no_throw [egg; milk])))
     = []
  /\ errors_logged (trace net_malformed
                          (handleGenerateRecipe (mkProps ["a"; "b"] no_throw [egg; milk])))
     = [Js.Error "Invalid response structure from generateRecipe API";
        Js.Error "Invalid response structure from generateRecipe API"].
Proof.
  apply (@handler_malformed_response net_malformed
           (mkProps ["a"; "b"] no_throw [egg; milk])
           (mkResponse 200 (Js.Obj [("message", Js.Str "Recipe generated")]))
           initial_state).
  - simpl. discriminate.
  - reflexivity.
  - reflexivity.
Defined.

(** X5. When the parent's callback throws [e] on the recipe it is given, the
    handler catches it: the callback has been called once, [e] is logged
    once, and the call ends with the flag down and the error cell holding
    the message of [e] or the fallback text, as for a failed request. *)
Theorem handler_callback_throws
        (net : request -> settlement) (props : RecipeGeneratorProps)
        (resp : response) (e : Js.exn) (s0 : state) :
  let names := selectedIngredientNames (selectedIngredientIds props) (ingredients props) in
  names <> [] ->
  net (generate_request names) = Resolved resp ->
  Js.truthy (Js.get "recipe" (data resp)) = true ->
  onRecipeGenerated props (Js.get "recipe" (data resp)) = Some e ->
  state_after (trace net (handleGenerateRecipe props)) s0
  = mkState false (Some (message_or_default e))
  /\ callbacks (trace net (handleGenerateRecipe props)) = [Js.get "recipe" (data resp)]
  /\ errors_logged (trace net (handleGenerateRecipe props)) = [e]
  /\ result net (handleGenerateRecipe props) = Returned tt.
Proof.
  intros names Hne Hnet Htruthy Hcb. subst names.
  rewrite (handler_state_after net props s0 Hne), (handler_callbacks net props Hne),
    (handler_errors_logged net props Hne), Hnet.
  destruct (truthy_get_has_field _ _ Htruthy) as [_ Hdata].
  unfold completion. rewrite Hdata, Htruthy, Hcb. repeat split.
  apply handler_result.
Qed.

Lemma handler_callback_throws_witness :
  state_after (trace net_ok (handleGenerateRecipe (mkProps ["a"; "b"] throwing [egg; milk])))
              initial_state
  = mkState false (Some "Cannot read properties of undefined")
  /\ callbacks (trace net_ok (handleGenerateRecipe (mkProps ["a"; "b"] throwing [egg; milk])))
     = [omelette]
  /\ errors_logged (trace net_ok (handleGenerateRecipe (mkProps ["a"; "b"] throwing [egg; milk])))
     = [Js.Error "Cannot read properties of undefined"]
  /\ result net_ok (handleGenerateRecipe (mkProps ["a"; "b"] throwing [egg; milk]))
     = Returned tt.
Proof.
  apply (@handler_callback_throws net_ok (mkProps ["a"; "b"] throwing [egg; milk])
           (mkResponse 201 (Js.Obj [("message", Js.Str "Recipe generated");
                                    ("recipe", omelette)]))
           (Js.Error "Cannot read properties of undefined") initial_state).
  - simpl. discriminate.
  - reflexivity.
  - reflexivity.
  - reflexivity.
Defined.

(** ** Further properties of name resolution *)

Lemma resolve_one_In (catalog : list Ingredient) (id nm : string) :
  In nm (resolve_one catalog id) <-> resolves_to catalog id nm.
Proof.
  unfold resolve_one, resolves_to. split.
  - destruct (find _ catalog) as [i|] eqn:E; simpl; [|tauto].
    intros [<-|[]]. exists i. apply find_some in E as [Hin Hid].
    apply String.eqb_eq in Hid. auto.
  - intros [i [-> [_ [_ <-]]]]. left. reflexivity.
Qed.

Lemma find_unique (catalog : list Ingredient) (i : Ingredient) :
  NoDup (map _id catalog) -> In i catalog ->
  find (fun j => String.eqb (_id j) (_id i)) catalog = Some i.
Proof.
  induction catalog as [|j rest IH]; intros Hnd Hin; [destruct Hin|].
  simpl in Hnd. apply NoDup_cons_iff in Hnd as [Hfresh Hnd]. simpl.
  destruct Hin as [->|Hin].
  - rewrite String.eqb_refl. reflexivity.
  - destruct (String.eqb_spec (_id j) (_id i)) as [E|_].
    + exfalso. apply Hfresh. rewrite E. apply in_map. exact Hin.
    + apply IH; assumption.
Qed.

Lemma resolve_one_permutation (catalog catalog' : list Ingredient) (id : string) :
  NoDup (map _id catalog) -> Permutation catalog catalog' ->
  resolve_one catalog id = resolve_one catalog' id.
Proof.
  intros Hnd Hperm. unfold resolve_one.
  assert (Hnd' : NoDup (map _id catalog'))
    by (apply (Permutation_NoDup (Permutation_map _id Hperm)); exact Hnd).
  destruct (find (fun i => String.eqb (_id i) id) catalog) as [i|] eqn:E.
  - apply find_some in E as [Hin Hid]. apply String.eqb_eq in Hid. subst id.
    rewrite (find_unique catalog' i Hnd' (Permutation_in i Hperm Hin)). reflexivity.
  - destruct (find (fun i => String.eqb (_id i) id) catalog') as [j|] eqn:E';
      [|reflexivity].
    apply find_some in E' as [Hin Hid].
    apply (Permutation_in j (Permutation_sym Hperm)) in Hin.
    apply (find_none _ _ E) in Hin. simpl in Hin. congruence.
Qed.

(** X6. A name is sent exactly when it is the name of the first catalog
    entry for some selected id: nothing is made up, and nothing that
    resolves is left out. *)
Theorem names_sound_and_complete
        (ids : list string) (catalog : list Ingredient) (nm : string) :
  In nm (selectedIngredientNames ids catalog)
  <-> exists id, In id ids /\ resolves_to catalog id nm.
Proof.
  rewrite names_flat_map, in_flat_map.
  split; intros [id [Hin H]]; exists id; split; try assumption;
    apply resolve_one_In; exact H.
Qed.

(** X7. When the ids of the catalog are pairwise distinct, the names depend
    on what the catalog holds and not on the order of its entries. *)
Theorem names_ignore_catalog_order
        (ids : list string) (catalog catalog' : list Ingredient) :
  NoDup (map _id catalog) ->
  Permutation catalog catalog' ->
  selectedIngredientNames ids catalog = selectedIngredientNames ids catalog'.
Proof.
  intros Hnd Hperm. rewrite !names_flat_map.
  apply flat_map_ext. intros id. apply resolve_one_permutation; assumption.
Qed.

Lemma names_ignore_catalog_order_witness :
  selectedIngredientNames ["b"; "x"; "a"] [egg; milk; pepper]
  = selectedIngredientNames ["b"; "x"; "a"] [pepper; egg; milk].
Proof.
  apply (@names_ignore_catalog_order ["b"; "x"; "a"] [egg; milk; pepper] [pepper; egg; milk]).
  - simpl. repeat constructor; simpl; intuition discriminate.
  - change [egg; milk; pepper] with ([egg; milk] ++ [pepper]).
    change [pepper; egg; milk] with ([pepper] ++ [egg; milk]).
    apply Permutation_app_comm.
Defined.

(** With two entries under one id the order does matter. *)
Example names_depend_on_order_of_duplicates :
  selectedIngredientNames ["a"] [egg; eggnog] = ["Egg"]
  /\ selectedIngredientNames ["a"] [eggnog; egg] = ["Eggnog"].
Proof. split; reflexivity. Qed.

(** X8. Every request the handler sends is the one [generateRecipe] makes for
    a non-empty list of names, no longer than the selection, each of them the
    name of a catalog entry whose id is selected: the handler never posts an
    empty list. *)
Theorem handler_posts_only_resolved_names
        (net : request -> settlement) (props : RecipeGeneratorProps) (r : request) :
  In r (requests (trace net (handleGenerateRecipe props))) ->
  exists names,
    r = generate_request names
    /\ names <> []
    /\ length names <= length (selectedIngredientIds props)
    /\ forall nm, In nm names ->
         exists i, In i (ingredients props)
                   /\ In (_id i) (selectedIngredientIds props) /\ name i = nm.
Proof.
  intros Hin.
  destruct (selectedIngredientNames (selectedIngredientIds props) (ingredients props))
    as [|n ns] eqn:En.
  - destruct (handler_trace_quiet net props En) as [Hreq _].
    rewrite Hreq in Hin. destruct Hin.
  - assert (Hne : selectedIngredientNames (selectedIngredientIds props) (ingredients props)
                  <> []) by (rewrite En; discriminate).
    rewrite (handler_requests net props Hne) in Hin. destruct Hin as [<-|[]].
    exists (selectedIngredientNames (selectedIngredientIds props) (ingredients props)).
    repeat split; [exact Hne|apply names_length_le|].
    intros nm Hnm. rewrite names_flat_map in Hnm. apply in_flat_map in Hnm as [id [Hid H]].
    apply resolve_one_In in H as [i [_ [Hi [Heq Hname]]]].
    exists i. rewrite Heq. auto.
Qed.

Lemma handler_posts_only_resolved_names_witness :
  exists names,
    generate_request ["Egg"] = generate_request names
    /\ names <> []
    /\ length names <= 2
    /\ forall nm, In nm names ->
         exists i, In i [egg] /\ In (_id i) ["a"; "x"] /\ name i = nm.
Proof.
  apply (@handler_posts_only_resolved_names net_ok (mkProps ["a"; "x"] no_throw [egg])
           (generate_request ["Egg"])).
  simpl. left. reflexivity.
Defined.

(** X9. With a non-empty selection, where the call leaves the flag and the
    error cell does not depend on what they held before: an earlier error is
    always discarded. *)
Theorem handler_discards_earlier_state
        (net : request -> settlement) (props : RecipeGeneratorProps) (s0 s1 : state) :
  selectedIngredientIds props <> [] ->
  state_after (trace net (handleGenerateRecipe props)) s0
  = state_after (trace net (handleGenerateRecipe props)) s1.
Proof.
  intros Hids.
  destruct (selectedIngredientNames (selectedIngredientIds props) (ingredients props))
    as [|n ns] eqn:En.
  - rewrite (handler_trace_unresolved net props Hids En). reflexivity.
  - assert (Hne : selectedIngredientNames (selectedIngredientIds props) (ingredients props)
                  <> []) by (rewrite En; discriminate).
    rewrite !(handler_state_after net props _ Hne). reflexivity.
Qed.

Lemma handler_discards_earlier_state_witness :
  state_after (trace net_ok (handleGenerateRecipe (mkProps ["a"; "b"] no_throw [egg; milk])))
              (mkState false (Some "Network Error"))
  = state_after (trace net_ok (handleGenerateRecipe (mkProps ["a"; "b"] no_throw [egg; milk])))
                initial_state.
Proof.
  apply (@handler_discards_earlier_state net_ok (mkProps ["a"; "b"] no_throw [egg; milk])
           (mkState false (Some "Network Error")) initial_state).
  simpl. discriminate.
Defined.

(** With an empty selection the flag is left as it was. *)
Example handler_empty_keeps_flag :
  state_after (trace net_ok (handleGenerateRecipe (mkProps [] no_throw [egg; milk])))
              (mkState true None)
  = mkState true (Some "Please select ingredients first.").
Proof. reflexivity. Qed.

(** * Further properties of the service client *)

(** X10. Each of the four client functions passes to [console.error] exactly
    the error it throws, once, and nothing when it returns: no failure is
    swallowed and no success is reported as an error. *)
Theorem client_logs_what_it_throws
        (net : request -> settlement)
        (ingredientName : string) (ingredientNames : list string) :
  errors_logged (trace net Api.fetchIngredients) = thrown (result net Api.fetchIngredients)
  /\ errors_logged (trace net (Api.addIngredient ingredientName))
     = thrown (result net (Api.addIngredient ingredientName))
  /\ errors_logged (trace net (Api.generateRecipe ingredientNames))
     = thrown (result net (Api.generateRecipe ingredientNames))
  /\ errors_logged (trace net Api.fetchRecipeHistory)
     = thrown (result net Api.fetchRecipeHistory).
Proof.
  unfold trace, result, Api.fetchIngredients, Api.addIngredient, Api.generateRecipe,
    Api.fetchRecipeHistory.
  repeat split; cbn; destruct (net _) as [resp|e]; cbn; try reflexivity;
    destruct (negb _ || negb _); reflexivity.
Qed.

(** X11. What [addIngredient] or [generateRecipe] returns is truthy: a caller
    never receives [undefined], [null], [false], zero or the empty string
    from them. *)
Theorem client_returns_truthy
        (net : request -> settlement)
        (ingredientName : string) (ingredientNames : list string) (v : Js.value) :
  result net (Api.addIngredient ingredientName) = Returned v
  \/ result net (Api.generateRecipe ingredientNames) = Returned v ->
  Js.truthy v = true.
Proof.
  rewrite addIngredient_result, generateRecipe_result. unfold unwrapped.
  intros [H|H]; destruct (net _) as [resp|e]; try discriminate;
    destruct (Js.truthy (Js.get _ (data resp))) eqn:E;
    rewrite ?andb_false_r in H; try discriminate;
    destruct (Js.has_field _ (data resp)); try discriminate;
    injection H as <-; exact E.
Qed.

Lemma client_returns_truthy_witness : Js.truthy omelette = true.
Proof.
  apply (@client_returns_truthy net_ok "Egg" ["Egg"; "Milk"] omelette).
  right. reflexivity.
Defined.

(** The list functions, which pass the body through, can return a falsy one. *)
Example fetchIngredients_can_return_null :
  result (fun _ => Resolved (mkResponse 200 Js.Null)) Api.fetchIngredients
  = Returned Js.Null.
Proof. reflexivity. Qed.

(** * Further properties of the mounted component *)

Lemma clicks_app (l1 l2 : list action) : clicks (l1 ++ l2) = clicks l1 + clicks l2.
Proof.
  induction l1 as [|a l1 IH]; [reflexivity|].
  destruct a; simpl; rewrite IH; reflexivity.
Qed.

Lemma settle_idle_or_pending (i : nat) (s : settlement) (c : component) :
  idle_or_pending c ->
  sent (settle i s c) = sent c /\ isGenerating (cstate (settle 0 s c)) = false.
Proof.
  intros [[Hfl Hdown]|[k [Hfl [Hk Hup]]]]; unfold settle; rewrite Hfl.
  - destruct i; simpl; auto.
  - destruct (Hk s (mkComponent (cstate c) [] (sent c))) as [Hdown [_ Hsent]].
    split; [|exact Hdown].
    destruct i as [|[|i]]; simpl; auto.
Qed.

Lemma Forall_remove_nth (A : Type) (P : A -> Prop) (i : nat) (l : list A) :
  Forall P l -> Forall P (remove_nth i l).
Proof.
  intros H. revert i. induction H as [|x l Hx Hl IH]; intros i; [destruct i; constructor|].
  destruct i; simpl; [exact Hl|]. constructor; [exact Hx|apply IH].
Qed.

Lemma advance_generating_error props names c :
  exists k,
    advance (generating props names) c
    = mkComponent (cstate c) (inflight c ++ [k]) (sent c ++ [generate_request names])
    /\ keeps_error_shown k.
Proof.
  eexists. split; [destruct c as [[g e] fl sn]; reflexivity|].
  intros s c' Hc'.
  pose proof message_or_default_shown as Hshown.
  assert (Hsome : forall e, Some (message_or_default e) <> Some "")
    by (intros e H; injection H as H; exact (Hshown e H)).
  destruct s as [resp|e]; cbn -[message_or_default]; [|auto].
  destruct (Js.truthy (data resp)); cbn -[message_or_default]; [|auto].
  destruct (Js.truthy (Js.get "recipe" (data resp))); cbn -[message_or_default]; [|auto].
  destruct (onRecipeGenerated props _); cbn -[message_or_default]; auto.
Qed.

Lemma advance_handler_error props c :
  error_shown c -> error_shown (advance (handleGenerateRecipe props) c).
Proof.
  intros [Herr Hfl]. rewrite handler_eq.
  destruct (selectedIngredientIds props) as [|id ids].
  - split; [cbn; discriminate|exact Hfl].
  - destruct (selectedIngredientNames (id :: ids) (ingredients props)) as [|n ns].
    + split; [cbn; discriminate|exact Hfl].
    + cbv beta iota zeta.
      destruct (Nat.eqb _ _); cbn [advance];
        match goal with
        | |- context [advance (generating ?p ?l) ?c0] =>
            destruct (advance_generating_error p l c0) as [k [E Hk]]; rewrite E
        end;
        (split; [cbn; discriminate|]);
        cbn; apply Forall_app; (split; [exact Hfl|]);
        (apply Forall_cons; [exact Hk|apply Forall_nil]).
Qed.

Lemma after_error_shown (actions : list action) : error_shown (after actions).
Proof.
  induction actions as [|a actions IH] using rev_ind.
  - split; [cbn; discriminate|constructor].
  - rewrite after_snoc. destruct a as [props|i s]; simpl.
    + unfold click. destruct (button_disabled _ _); [exact IH|].
      apply advance_handler_error. exact IH.
    + unfold settle. destruct (nth_error (inflight (after actions)) i) as [k|] eqn:E;
        [|exact IH].
      destruct IH as [Herr Hfl].
      pose proof (proj1 (Forall_forall _ _) Hfl k (nth_error_In _ _ E)) as Hk.
      destruct (Hk s (mkComponent (cstate (after actions))
                                  (remove_nth i (inflight (after actions)))
                                  (sent (after actions))) Herr) as [Herr' Hin].
      split; [exact Herr'|]. rewrite Hin. simpl. apply Forall_remove_nth. exact Hfl.
Qed.

(** X12. From mounting on, the component has sent at most as many requests
    as the button was clicked: a settlement, however it goes, sends
    nothing. *)
Theorem requests_bounded_by_clicks (actions : list action) :
  length (sent (after actions)) <= clicks actions.
Proof.
  induction actions as [|a actions IH] using rev_ind; [simpl; lia|].
  rewrite after_snoc, clicks_app.
  pose proof (after_idle_or_pending actions) as Hinv.
  destruct a as [props|i s]; simpl.
  - unfold click. destruct (button_disabled _ _); [lia|].
    destruct (advance_handler props (after actions))
      as [[_ [-> _]]|[k [_ [_ [_ ->]]]]]; [lia|].
    rewrite length_app. simpl. lia.
  - destruct (settle_idle_or_pending i s Hinv) as [-> _]. lia.
Qed.

(** X13. Once the request in flight has settled, whichever way, the button
    is enabled again for any non-empty selection: the user can always try
    again. *)
Theorem button_enabled_after_settlement
        (actions : list action) (s : settlement) (props : RecipeGeneratorProps) :
  selectedIngredientIds props <> [] ->
  button_disabled (cstate (after (actions ++ [Settle 0 s]))) props = false.
Proof.
  intros Hids. rewrite after_snoc. simpl. unfold button_disabled.
  destruct (settle_idle_or_pending 0 s (after_idle_or_pending actions)) as [_ ->].
  destruct (selectedIngredientIds props); [contradiction|reflexivity].
Qed.

Lemma button_enabled_after_settlement_witness :
  button_disabled
    (cstate (after ([Click (mkProps ["a"; "b"] no_throw [egg; milk])]
                    ++ [Settle 0 (Rejected (Js.AxiosError "Network Error" "ERR_NETWORK"))])))
    (mkProps ["a"; "b"] no_throw [egg; milk])
  = false.
Proof.
  apply (@button_enabled_after_settlement
           [Click (mkProps ["a"; "b"] no_throw [egg; milk])]
           (Rejected (Js.AxiosError "Network Error" "ERR_NETWORK"))
           (mkProps ["a"; "b"] no_throw [egg; milk])).
  simpl. discriminate.
Defined.

(** X14. From mounting on, the error cell never holds the empty string: an
    error whose message is empty is replaced by the fallback text, so what
    is recorded can always be displayed. *)
Theorem error_cell_never_empty_string (actions : list action) :
  error (cstate (after actions)) <> Some "".
Proof. exact (proj1 (after_error_shown actions)). Qed.

(** An error with an empty message, and what is recorded for it. *)
Example error_with_empty_message :
  error (cstate (after [Click (mkProps ["a"; "b"] no_throw [egg; milk]);
                        Settle 0 (Rejected (Js.Error ""))]))
  = Some "Failed to generate recipe. Please try again.".
Proof. reflexivity. Qed.

(** * Properties of what is rendered *)

Section Render.

Variable props : RecipeGeneratorProps.

Lemma keyed_chip id : keyed (chip (ingredients props) id) = [chip (ingredients props) id].
Proof. unfold chip. destruct (find _ _); reflexivity. Qed.

Lemma keyed_chips ids :
  flat_map keyed (map (chip (ingredients props)) ids) = map (chip (ingredients props)) ids.
Proof.
  induction ids as [|id ids IH]; [reflexivity|].
  simpl. rewrite keyed_chip, IH. reflexivity.
Qed.

Lemma by_tag_chips tag ids :
  String.eqb "span" tag = false ->
  flat_map (by_tag tag) (map (chip (ingredients props)) ids) = [].
Proof.
  intros Htag. induction ids as [|id ids IH]; [reflexivity|].
  cbn [map flat_map]. rewrite IH, app_nil_r. unfold chip.
  destruct (find _ _); cbn [by_tag flat_map app]; rewrite Htag; reflexivity.
Qed.

Lemma numbers_chips ids : flat_map numbers (map (chip (ingredients props)) ids) = [].
Proof.
  induction ids as [|id ids IH]; [reflexivity|].
  simpl. rewrite IH, app_nil_r. unfold chip. destruct (find _ _); reflexivity.
Qed.

(** The elements with a key are the chips, one per selected id. *)
Lemma keyed_render s :
  keyed (render props s) = map (chip (ingredients props)) (selectedIngredientIds props).
Proof.
  unfold render.
  destruct (selectedIngredientIds props) as [|id ids] eqn:Eids.
  - destruct (error s) as [msg|]; [destruct (String.eqb msg "")|];
      destruct (isGenerating s); reflexivity.
  - pose proof (keyed_chips (id :: ids)) as Hk.
    destruct (error s) as [msg|]; [destruct (String.eqb msg "")|];
      destruct (isGenerating s); cbn [keyed flat_map app length Nat.ltb Nat.leb];
      rewrite Hk, !app_nil_r; reflexivity.
Qed.

Lemma numbers_render s : numbers (render props s) = [length (selectedIngredientIds props)].
Proof.
  unfold render.
  destruct (selectedIngredientIds props) as [|id ids] eqn:Eids.
  - destruct (error s) as [msg|]; [destruct (String.eqb msg "")|];
      destruct (isGenerating s); reflexivity.
  - pose proof (numbers_chips (id :: ids)) as Hn.
    destruct (error s) as [msg|]; [destruct (String.eqb msg "")|];
      destruct (isGenerating s); cbn [numbers flat_map app length Nat.ltb Nat.leb Nat.eqb];
      rewrite Hn; reflexivity.
Qed.

Lemma chip_view id :
  (key_of (chip (ingredients props) id), texts (chip (ingredients props) id),
   is_placeholder (chip (ingredients props) id))
  = (Some id,
     [match name_or_null (ingredients props) id with
      | Some nm => nm
      | None => "Loading..."
      end],
     negb (not_null (name_or_null (ingredients props) id))).
Proof. unfold chip, name_or_null. destruct (find _ _); reflexivity. Qed.

End Render.

Section RenderParts.

Variable props : RecipeGeneratorProps.

Lemma shown_names ids :
  flat_map texts (filter (fun n => negb (is_placeholder n))
                         (map (chip (ingredients props)) ids))
  = selectedIngredientNames ids (ingredients props).
Proof.
  induction ids as [|id ids IH]; [reflexivity|].
  rewrite names_cons. cbn [map filter]. unfold chip at 1 2, resolve_one.
  destruct (find _ _); cbn; rewrite IH; reflexivity.
Qed.

Lemma shown_named_count ids :
  length (filter (fun n => negb (is_placeholder n)) (map (chip (ingredients props)) ids))
  = length (selectedIngredientNames ids (ingredients props)).
Proof.
  induction ids as [|id ids IH]; [reflexivity|].
  rewrite names_cons. cbn [map filter]. unfold chip at 1 2, resolve_one.
  destruct (find _ _); cbn; rewrite IH; reflexivity.
Qed.

Lemma shown_placeholder_count ids :
  length (filter is_placeholder (map (chip (ingredients props)) ids))
  + length (selectedIngredientNames ids (ingredients props))
  = length ids.
Proof.
  induction ids as [|id ids IH]; [reflexivity|].
  rewrite names_cons. cbn [map filter]. unfold chip at 1 2, resolve_one.
  destruct (find _ _); cbn; lia.
Qed.

Lemma button_render s :
  flat_map texts (by_tag "button" (render props s))
  = [if isGenerating s then "Generating Recipe..." else "Generate Recipe"]
  /\ map (attr "disabled") (by_tag "button" (render props s))
     = [Some (PBool (button_disabled s props))].
Proof.
  pose proof (by_tag_chips props "button" (selectedIngredientIds props) eq_refl) as Hc.
  unfold render, button_disabled.
  generalize dependent (map (chip (ingredients props)) (selectedIngredientIds props)).
  intros chips Hc.
  destruct (error s) as [msg|]; [destruct (String.eqb msg "")|];
    destruct (Nat.ltb 0 _); destruct (isGenerating s); simpl;
    rewrite ?Hc; split; reflexivity.
Qed.

Lemma paragraphs_render s :
  flat_map texts (by_tag "p" (render props s))
  = (match error s with
     | Some msg => if String.eqb msg "" then [] else [msg]
     | None => []
     end)
    ++ (if Nat.ltb 0 (length (selectedIngredientIds props)) then []
        else ["Your basket is empty. Add items from your pantry!"]).
Proof.
  pose proof (by_tag_chips props "p" (selectedIngredientIds props) eq_refl) as Hc.
  unfold render.
  generalize dependent (map (chip (ingredients props)) (selectedIngredientIds props)).
  intros chips Hc.
  destruct (error s) as [msg|]; [destruct (String.eqb msg "")|];
    destruct (Nat.ltb 0 _); destruct (isGenerating s); simpl;
    rewrite ?Hc; reflexivity.
Qed.

Lemma handler_warnings net :
  warnings (trace net (handleGenerateRecipe props))
  = let names := selectedIngredientNames (selectedIngredientIds props) (ingredients props) in
    if Nat.ltb 0 (length names)
       && negb (Nat.eqb (length names) (length (selectedIngredientIds props)))
    then [mismatch_warning] else [].
Proof.
  destruct (selectedIngredientNames (selectedIngredientIds props) (ingredients props))
    as [|n ns] eqn:En.
  - destruct (selectedIngredientIds props) as [|id ids] eqn:Eids.
    + rewrite (handler_trace_empty net props Eids). reflexivity.
    + rewrite <- Eids in En.
      assert (Hids : selectedIngredientIds props <> []) by (rewrite Eids; discriminate).
      rewrite (handler_trace_unresolved net props Hids En). reflexivity.
  - assert (Hne : selectedIngredientNames (selectedIngredientIds props) (ingredients props)
                  <> []) by (rewrite En; discriminate).
    rewrite (handler_trace_generating net props Hne), generating_trace, En.
    cbv zeta. cbn [length Nat.ltb Nat.leb andb].
    destruct (Nat.eqb _ _); simpl; rewrite completion_warnings; reflexivity.
Qed.

End RenderParts.

(** X15. Whatever the state, the display area shows one chip per selected
    id, in selection order and keyed by that id (so a repeated id repeats a
    key): the chip shows the name the handler would send for the id, or the
    placeholder text when the catalog has no entry for it; and the number in
    the badge is the number of chips. *)
Theorem render_chips_follow_selection (props : RecipeGeneratorProps) (s : state) :
  map (fun n => (key_of n, texts n, is_placeholder n)) (keyed (render props s))
  = map (fun id =>
           (Some id,
            [match name_or_null (ingredients props) id with
             | Some nm => nm
             | None => "Loading..."
             end],
            negb (not_null (name_or_null (ingredients props) id))))
        (selectedIngredientIds props)
  /\ numbers (render props s) = [length (keyed (render props s))].
Proof.
  rewrite keyed_render, numbers_render, map_map, length_map. split; [|reflexivity].
  apply map_ext. intros id. apply chip_view.
Qed.

(** X16. What the user sees is what is sent: the texts of the chips that
    are not placeholders, in display order, are the names the handler
    resolves, and the request it sends, if any, carries exactly them. *)
Theorem render_shows_names_sent
        (net : request -> settlement) (props : RecipeGeneratorProps) (s : state) :
  let shown := flat_map texts (filter (fun n => negb (is_placeholder n))
                                      (keyed (render props s))) in
  shown = selectedIngredientNames (selectedIngredientIds props) (ingredients props)
  /\ requests (trace net (handleGenerateRecipe props))
     = match shown with
       | [] => []
       | _ :: _ => [generate_request shown]
       end.
Proof.
  intros shown. subst shown. rewrite keyed_render, shown_names. split; [reflexivity|].
  destruct (selectedIngredientNames (selectedIngredientIds props) (ingredients props))
    as [|n ns] eqn:En.
  - exact (proj1 (handler_trace_quiet net props En)).
  - rewrite <- En. apply handler_requests. rewrite En. discriminate.
Qed.

(** X17. The handler warns on the console exactly when the display mixes
    named chips and placeholders; with placeholders only it records its
    could-not-find error instead, and with named chips only it does neither. *)
Theorem warning_iff_mixed_chips
        (net : request -> settlement) (props : RecipeGeneratorProps) (s : state) :
  let chips := keyed (render props s) in
  warnings (trace net (handleGenerateRecipe props))
  = if Nat.ltb 0 (length (filter (fun n => negb (is_placeholder n)) chips))
       && Nat.ltb 0 (length (filter is_placeholder chips))
    then [mismatch_warning] else [].
Proof.
  intros chips. subst chips.
  rewrite keyed_render, handler_warnings, shown_named_count. cbv zeta.
  pose proof (shown_placeholder_count props (selectedIngredientIds props)) as Hcount.
  destruct (Nat.ltb 0 (length (selectedIngredientNames _ _))); [|reflexivity].
  cbn [andb].
  destruct (Nat.eqb_spec (length (selectedIngredientNames (selectedIngredientIds props)
                                                          (ingredients props)))
                         (length (selectedIngredientIds props))) as [E|E];
    destruct (Nat.ltb_spec 0 (length (filter is_placeholder
                                             (map (chip (ingredients props))
                                                  (selectedIngredientIds props)))));
    try reflexivity; lia.
Qed.

(** The three displays: mixed, placeholders only, named only. *)
Example warning_by_display :
  warnings (trace net_ok (handleGenerateRecipe (mkProps ["a"; "x"] no_throw [egg])))
  = [mismatch_warning]
  /\ warnings (trace net_ok (handleGenerateRecipe (mkProps ["x"] no_throw [egg]))) = []
  /\ warnings (trace net_ok (handleGenerateRecipe (mkProps ["a"] no_throw [egg]))) = [].
Proof. repeat split. Qed.

(** X18. From mounting on, and for the props of any render, the button
    shows the spinner label exactly while a call is in flight and the plain
    label otherwise, and it is disabled exactly while a call is in flight or
    the selection is empty. *)
Theorem button_tracks_flight (actions : list action) (props : RecipeGeneratorProps) :
  let view := render props (cstate (after actions)) in
  flat_map texts (by_tag "button" view)
  = [match inflight (after actions) with
     | [] => "Generate Recipe"
     | _ :: _ => "Generating Recipe..."
     end]
  /\ map (attr "disabled") (by_tag "button" view)
     = [Some (PBool (match inflight (after actions) with
                     | [] => Nat.eqb (length (selectedIngredientIds props)) 0
                     | _ :: _ => true
                     end))].
Proof.
  intros view. subst view.
  destruct (button_render props (cstate (after actions))) as [-> ->].
  unfold button_disabled.
  destruct (after_idle_or_pending actions) as [[-> ->]|[k [-> [_ ->]]]];
    split; reflexivity.
Qed.

(** X19. From mounting on, the paragraphs of the view display exactly the
    content of the error cell, when it holds one, and the empty-basket
    message, when the selection is empty: a recorded error is always
    shown. *)
Theorem error_is_displayed (actions : list action) (props : RecipeGeneratorProps) :
  flat_map texts (by_tag "p" (render props (cstate (after actions))))
  = (match error (cstate (after actions)) with
     | Some msg => [msg]
     | None => []
     end)
    ++ (match selectedIngredientIds props with
        | [] => ["Your basket is empty. Add items from your pantry!"]
        | _ :: _ => []
        end).
Proof.
  rewrite paragraphs_render.
  pose proof (proj1 (after_error_shown actions)) as Hshown.
  f_equal.
  - destruct (error (cstate (after actions))) as [msg|]; [|reflexivity].
    destruct (String.eqb_spec msg ""); [subst; contradiction|reflexivity].
  - destruct (selectedIngredientIds props); reflexivity.
Qed.

(** In a state that is never reached, an empty error would display nothing. *)
Example empty_error_not_displayed :
  flat_map texts (by_tag "p" (render (mkProps ["a"] no_throw [egg]) (mkState false (Some ""))))
  = [].
Proof. reflexivity. Qed.

(** X20. With an empty selection, whatever the state and the catalog: no
    chip is shown, the badge shows zero, the button is disabled, and a click
    changes nothing, so the handler is never entered with an empty selection
    from the button. *)
Theorem empty_basket_cannot_be_submitted
        (props : RecipeGeneratorProps) (s : state) (c : component) :
  selectedIngredientIds props = [] ->
  keyed (render props s) = []
  /\ numbers (render props s) = [0]
  /\ map (attr "disabled") (by_tag "button" (render props s)) = [Some (PBool true)]
  /\ click props c = c.
Proof.
  intros Hids.
  rewrite keyed_render, numbers_render, (proj2 (button_render props s)).
  unfold click, button_disabled. rewrite Hids. simpl.
  rewrite !orb_true_r. repeat split.
Qed.

Lemma empty_basket_cannot_be_submitted_witness :
  keyed (render (mkProps [] no_throw [egg; milk]) initial_state) = []
  /\ numbers (render (mkProps [] no_throw [egg; milk]) initial_state) = [0]
  /\ map (attr "disabled")
         (by_tag "button" (render (mkProps [] no_throw [egg; milk]) initial_state))
     = [Some (PBool true)]
  /\ click (mkProps [] no_throw [egg; milk]) mounted = mounted.
Proof.
  apply (@empty_basket_cannot_be_submitted (mkProps [] no_throw [egg; milk])
           initial_state mounted).
  reflexivity.
Defined.
